(** * gsheet_diff: the sheet synchroniser of [gsheet_read.py]

    A shallow embedding of the script's storage and comparison logic
    ([read_previous_data], [write_new_data], [save_changes],
    [process_sheet], [main]) and the properties its specification states
    about them.

    Modelling decisions, all read off the source:
    - a cell is a [string], a row a [list string], a sheet a list of rows
      (what the Sheets API returns and what [json.load] gives back);
    - paths are POSIX paths, built by [os.path.join] and resolved
      component by component from the working directory;
    - the state is the content of the output directory [OUTPUT_DIR], a
      directory of regular files: a finite map from file names to the
      JSON value each file holds ([json.load] after [json.dump] is the
      identity on nested lists of strings).  The script creates no
      directory inside it, so a path that needs one fails to open; a key
      of the map that is no file name stands for no file;
    - the storage is otherwise reliable: on a file name of the output
      directory an operation fails for no reason of permission, space or
      name length, and [OUTPUT_DIR] is a directory, not a link;
    - a path that resolves outside the output directory addresses files
      this state does not hold: an operation on it ends the run with the
      outcome [Escaped], and the model follows the run no further;
    - the remote service is a record of its responses, an [HttpError]
      being one of them;
    - effects are threaded by a small monad that carries the directory,
      the chronological trace of storage operations and printed lines,
      and the outcome (a value, an exception, or an escape). *)

From Stdlib Require Import Ascii DecimalString DecimalNat.
From stdpp Require Import gmap strings list fin_maps.

(** ** Data *)

Definition OUTPUT_DIR : string := "output_data".

(** [str(n)] for a natural number: its decimal digits. *)
Definition str (n : nat) : string := NilEmpty.string_of_uint (Nat.to_uint n).

(** [s.startswith(p)]. *)
Definition startswith (s p : string) : bool := String.prefix p s.

(** [s.endswith(p)]. *)
Fixpoint endswith (s p : string) : bool :=
  String.eqb s p ||
  match s with
  | EmptyString => false
  | String _ s' => endswith s' p
  end.

(** [os.path.join(a, b)] of [posixpath]: an absolute [b] replaces [a]. *)
Definition os_path_join (a b : string) : string :=
  if startswith b "/" then b
  else if String.eqb a "" || endswith a "/" then a +:+ b
  else a +:+ "/" +:+ b.

(** Python's [==] on two lists of strings: same length and equal items,
    position by position. *)
Fixpoint list_eqb (r1 r2 : list string) : bool :=
  match r1, r2 with
  | [], [] => true
  | c1 :: r1', c2 :: r2' => String.eqb c1 c2 && list_eqb r1' r2'
  | _, _ => false
  end.

(** Python's [x in l] on a list of rows: a linear scan with [==]. *)
Fixpoint py_in (x : list string) (l : list (list string)) : bool :=
  match l with
  | [] => false
  | y :: l' => list_eqb y x || py_in x l'
  end.

(** ** Paths *)

(** A string in which the character [c] does not occur. *)
Fixpoint free_of (c : ascii) (s : string) : Prop :=
  match s with
  | EmptyString => True
  | String a s' => a ≠ c ∧ free_of c s'
  end.

Global Instance free_of_dec c s : Decision (free_of c s).
Proof.
  induction s as [|a s IH]; simpl.
  - left. exact I.
  - destruct (decide (a = c)) as [Heq|Hne].
    + right. intros [Hn _]. exact (Hn Heq).
    + destruct IH as [Hf|Hf].
      * left. exact (conj Hne Hf).
      * right. intros [_ Hs]. exact (Hf Hs).
Defined.

(** The components of a path: [path.split("/")]. *)
Fixpoint split_sep (s : string) : list string :=
  match s with
  | EmptyString => [EmptyString]
  | String c s' =>
      if Ascii.eqb c "/" then EmptyString :: split_sep s'
      else match split_sep s' with
           | x :: l => String c x :: l
           | [] => [String c EmptyString]
           end
  end.

(** A name a file of a directory can have. *)
Definition is_entry_name (e : string) : bool :=
  negb (String.eqb e "") && negb (String.eqb e ".")
  && negb (String.eqb e "..") && bool_decide (free_of "/" e).

(** Where a path leads: to a file name in the output directory, to a
    directory, below a name [c] of the output directory that would have
    to be a directory, or outside the output directory. *)
Inductive location : Type :=
  | Entry (e : string)
  | Directory
  | Under (c : string)
  | Elsewhere.

(** The walk along the components, from the working directory
    ([inside = false]) or from the output directory ([inside = true]). *)
Fixpoint walk (inside : bool) (comps : list string) : location :=
  match comps with
  | [] => Directory
  | c :: rest =>
      if String.eqb c "" || String.eqb c "." then walk inside rest
      else if String.eqb c ".." then
        if inside then walk false rest else Elsewhere
      else if inside then
        match rest with [] => Entry c | _ :: _ => Under c end
      else if String.eqb c OUTPUT_DIR then walk true rest
      else Elsewhere
  end.

Definition locate (path : string) : location :=
  if String.eqb path "" then Under ""
  else if startswith path "/" then Elsewhere
  else walk false (split_sep path).

(** ** Effects *)

Inductive event : Type :=
  | Print (line : string)
  | MakeDirs (dir : string)
  | PathExists (path : string)
  | OpenRead (name : string)
  | OpenWrite (name : string) (data : list (list string))
  | ListDir (dir : string).

Inductive outcome (A : Type) : Type :=
  | Returned (a : A)
  | Raised (exn : string)
  | Escaped (path : string).
Arguments Returned {A} a.
Arguments Raised {A} exn.
Arguments Escaped {A} path.

Global Instance outcome_eq_dec {A} `{EqDecision A} : EqDecision (outcome A).
Proof. solve_decision. Defined.

Definition io (A : Type) : Type :=
  gmap string (list (list string)) →
  outcome A * gmap string (list (list string)) * list event.

Global Instance io_ret : MRet io := λ A a fs, (Returned a, fs, []).

Global Instance io_bind : MBind io := λ A B k m fs,
  match m fs with
  | (Returned a, fs1, t1) =>
      match k a fs1 with
      | (o, fs2, t2) => (o, fs2, t1 ++ t2)
      end
  | (Raised e, fs1, t1) => (Raised e, fs1, t1)
  | (Escaped p, fs1, t1) => (Escaped p, fs1, t1)
  end.

Definition print (line : string) : io unit :=
  λ fs, (Returned (), fs, [Print line]).

(** [os.makedirs(dir, exist_ok=True)]: the directory is there afterwards
    and its entries are untouched. *)
Definition os_makedirs (dir : string) : io unit :=
  λ fs, (Returned (), fs, [MakeDirs dir]).

(** The exception of [open] on a path below the name [c]. *)
Definition open_error (fs : gmap string (list (list string))) (c : string)
  : string :=
  if is_entry_name c && bool_decide (is_Some (fs !! c))
  then "NotADirectoryError" else "FileNotFoundError".

(** How [open] fails on a path that leads to no file name. *)
Definition open_failure {A : Type} (fs : gmap string (list (list string)))
  (path : string) (loc : location) : outcome A :=
  match loc with
  | Entry _ => Raised "FileNotFoundError"
  | Directory => Raised "IsADirectoryError"
  | Under c => Raised (open_error fs c)
  | Elsewhere => Escaped path
  end.

(** [os.path.exists(path)]: never raises. *)
Definition os_path_exists (path : string) : io bool :=
  λ fs, match locate path with
        | Entry e =>
            (Returned (bool_decide (is_Some (fs !! e))), fs, [PathExists path])
        | Directory => (Returned true, fs, [PathExists path])
        | Under _ => (Returned false, fs, [PathExists path])
        | Elsewhere => (Escaped path, fs, [PathExists path])
        end.

(** [with open(path, "r") as f: return json.load(f)]. *)
Definition json_load (path : string) : io (list (list string)) :=
  λ fs, match locate path with
        | Entry e =>
            match fs !! e with
            | Some data => (Returned data, fs, [OpenRead e])
            | None => (Raised "FileNotFoundError", fs, [])
            end
        | loc => (open_failure fs path loc, fs, [])
        end.

(** [with open(path, "w") as f: json.dump(data, f, ...)]: mode ["w"]
    creates the file or truncates the one that is there. *)
Definition json_dump (path : string) (data : list (list string)) : io unit :=
  λ fs, match locate path with
        | Entry e => (Returned (), <[e := data]> fs, [OpenWrite e data])
        | loc => (open_failure fs path loc, fs, [])
        end.

(** [os.listdir(dir)] of the output directory: its file names, in no
    particular order. *)
Definition os_listdir (dir : string) : io (list string) :=
  λ fs, (Returned (List.filter is_entry_name (map_to_list fs).*1), fs,
         [ListDir dir]).

(** ** The remote service *)

(** What the two API calls answer: either an [HttpError] (with the text it
    prints as) or the payload; a payload without a ["values"] key is the
    empty list of rows. *)
Record service : Type := {
  spreadsheets_get : string → string + list string;
  values_get : string → string → string + list (list string)
}.

Definition SAMPLE_SPREADSHEET_ID : string :=
  "1BeOZFEa00aC8jGFB_jH_KCT-Y_YoLDqlHtQqJtoed7I".

Definition get_all_sheets (svc : service) (spreadsheet_id : string)
  : io (list string) :=
  match spreadsheets_get svc spreadsheet_id with
  | inr titles => mret titles
  | inl err =>
      print ("An error occurred while fetching sheet names: " +:+ err);;
      mret []
  end.

Definition read_google_sheet (svc : service) (sheet_name : string)
  : io (list (list string)) :=
  let range_name := sheet_name +:+ "!A1:Z" in
  match values_get svc SAMPLE_SPREADSHEET_ID range_name with
  | inr values => mret values
  | inl err =>
      print ("An error occurred while accessing sheet " +:+ sheet_name
             +:+ ": " +:+ err);;
      mret []
  end.

(** ** The snapshot store and the change recorder *)

Definition latest_name (sheet_name : string) : string :=
  sheet_name +:+ "_latest.json".

Definition changes_prefix (sheet_name : string) : string :=
  "changes_" +:+ sheet_name +:+ "_".

Definition changes_name (sheet_name : string) (n : nat) : string :=
  "changes_" +:+ sheet_name +:+ "_" +:+ str n +:+ ".json".

Definition read_previous_data (sheet_name : string)
  : io (list (list string)) :=
  let file_path := os_path_join OUTPUT_DIR (latest_name sheet_name) in
  b ← os_path_exists file_path;
  if b : bool then json_load file_path else mret [].

Definition write_new_data (sheet_name : string) (data : list (list string))
  : io unit :=
  let file_path := os_path_join OUTPUT_DIR (latest_name sheet_name) in
  json_dump file_path data.

Definition save_changes (sheet_name : string) (changes : list (list string))
  : io unit :=
  entries ← os_listdir OUTPUT_DIR;
  let changes_count :=
    length (List.filter (λ f, startswith f (changes_prefix sheet_name))
                        entries) in
  let changes_file :=
    os_path_join OUTPUT_DIR (changes_name sheet_name (changes_count + 1)) in
  json_dump changes_file changes;;
  print ("Changes saved to " +:+ changes_file).

(** ** The sync engine *)

(** [[row for row in current_data if row not in previous_data]]. *)
Definition new_rows (current_data previous_data : list (list string))
  : list (list string) :=
  List.filter (λ r, negb (py_in r previous_data)) current_data.

Definition process_sheet (svc : service) (sheet_name : string) : io unit :=
  print ("Processing sheet: " +:+ sheet_name);;
  current_data ← read_google_sheet svc sheet_name;
  match current_data with
  | [] => print ("No data found in sheet: " +:+ sheet_name)
  | _ :: _ =>
      previous_data ← read_previous_data sheet_name;
      let new_data := new_rows current_data previous_data in
      match new_data with
      | _ :: _ =>
          print ("New/changed rows found in " +:+ sheet_name +:+ ": "
                 +:+ str (length new_data));;
          write_new_data sheet_name current_data;;
          save_changes sheet_name new_data
      | [] => print ("No new changes found in " +:+ sheet_name +:+ ".")
      end
  end.

(** [for x in l: body(x)]. *)
Fixpoint for_each {A : Type} (l : list A) (body : A → io unit) : io unit :=
  match l with
  | [] => mret ()
  | x :: l' => body x;; for_each l' body
  end.

(** [main] once the credentials are obtained and the service is built
    (the authentication flow lives outside the output directory). *)
Definition main (svc : service) : io unit :=
  os_makedirs OUTPUT_DIR;;
  sheet_names ← get_all_sheets svc SAMPLE_SPREADSHEET_ID;
  match sheet_names with
  | [] => print "No sheets found in the spreadsheet."
  | _ :: _ => for_each sheet_names (process_sheet svc)
  end.

(** Projections of a run. *)
Definition result {A : Type}
  (r : outcome A * gmap string (list (list string)) * list event)
  : outcome A := r.1.1.
Definition files_after {A : Type}
  (r : outcome A * gmap string (list (list string)) * list event)
  : gmap string (list (list string)) := r.1.2.
Definition trace {A : Type}
  (r : outcome A * gmap string (list (list string)) * list event)
  : list event := r.2.

(** Derived quantities the statements below talk about. *)

(** A sheet name without path separator: its snapshot and its records are
    files of the output directory. *)
Definition plain (sheet_name : string) : Prop := free_of "/" sheet_name.

Global Instance plain_dec sheet_name : Decision (plain sheet_name).
Proof. unfold plain. apply _. Defined.

(** The paths the script opens for a sheet. *)
Definition snapshot_path (sheet_name : string) : string :=
  os_path_join OUTPUT_DIR (latest_name sheet_name).

Definition record_path (sheet_name : string) (n : nat) : string :=
  os_path_join OUTPUT_DIR (changes_name sheet_name n).

(** What [read_google_sheet] hands to [process_sheet]. *)
Definition fetched (svc : service) (sheet_name : string)
  : list (list string) :=
  match values_get svc SAMPLE_SPREADSHEET_ID (sheet_name +:+ "!A1:Z") with
  | inr values => values
  | inl _ => []
  end.

(** What [read_google_sheet] prints on the way. *)
Definition fetch_trace (svc : service) (sheet_name : string) : list event :=
  match values_get svc SAMPLE_SPREADSHEET_ID (sheet_name +:+ "!A1:Z") with
  | inr _ => []
  | inl err =>
      [Print ("An error occurred while accessing sheet " +:+ sheet_name
              +:+ ": " +:+ err)]
  end.

(** What [get_all_sheets] prints on the way. *)
Definition listing_trace (svc : service) : list event :=
  match spreadsheets_get svc SAMPLE_SPREADSHEET_ID with
  | inr _ => []
  | inl err =>
      [Print ("An error occurred while fetching sheet names: " +:+ err)]
  end.

(** The sheet names [main] iterates over. *)
Definition listed_sheets (svc : service) : list string :=
  match spreadsheets_get svc SAMPLE_SPREADSHEET_ID with
  | inr titles => titles
  | inl _ => []
  end.

(** How [read_previous_data] ends for a sheet. *)
Definition read_result (fs : gmap string (list (list string)))
  (sheet_name : string) : outcome (list (list string)) :=
  match locate (snapshot_path sheet_name) with
  | Entry e => Returned (default [] (fs !! e))
  | Directory => Raised "IsADirectoryError"
  | Under _ => Returned []
  | Elsewhere => Escaped (snapshot_path sheet_name)
  end.

(** The stored snapshot of a sheet: the rows [read_previous_data] returns
    for it, none when there is no snapshot or the read does not return. *)
Definition stored_snapshot (fs : gmap string (list (list string)))
  (sheet_name : string) : list (list string) :=
  match read_result fs sheet_name with
  | Returned data => data
  | _ => []
  end.

(** What [read_previous_data] does to the directory. *)
Definition read_trace (fs : gmap string (list (list string)))
  (sheet_name : string) : list event :=
  PathExists (snapshot_path sheet_name) ::
  match locate (snapshot_path sheet_name) with
  | Entry e =>
      match fs !! e with
      | Some _ => [OpenRead e]
      | None => []
      end
  | _ => []
  end.

(** The entries [save_changes] counts for a sheet. *)
Definition counted_entries (fs : gmap string (list (list string)))
  (sheet_name : string) : list string :=
  List.filter (λ f, startswith f (changes_prefix sheet_name))
              (List.filter is_entry_name (map_to_list fs).*1).

Definition changes_count (fs : gmap string (list (list string)))
  (sheet_name : string) : nat :=
  length (counted_entries fs sheet_name).

(** The specification's full-row equality: same length, same value at
    every position. *)
Definition full_row_equal (r p : list string) : Prop :=
  length r = length p ∧ ∀ i, r !! i = p !! i.

Global Instance full_row_equal_dec r p : Decision (full_row_equal r p).
Proof.
  refine (cast_if (decide (r = p))).
  - by subst.
  - intros [_ H]. by apply n, list_eq.
Defined.

(** Every stored record of every sheet carries a number that is at most
    the count [save_changes] derives for that sheet. *)
Definition numbered_within (fs : gmap string (list (list string))) : Prop :=
  ∀ n k, is_Some (fs !! changes_name n k) → k ≤ changes_count fs n.

(** From a numbered directory, the directories in which the numbering
    still holds and every record that was stored still is. *)
Definition keeps_records : relation (gmap string (list (list string))) :=
  λ fs fs', numbered_within fs →
            numbered_within fs'
            ∧ ∀ m k d, fs !! changes_name m k = Some d →
                       fs' !! changes_name m k = Some d.

(** A service with one sheet. *)
Definition one_sheet (name : string) (values : list (list string)) : service :=
  {| spreadsheets_get := λ _, inr [name];
     values_get := λ _ _, inr values |}.

(** A service with two sheets that hold the same rows. *)
Definition two_sheets (first second : string) (values : list (list string))
  : service :=
  {| spreadsheets_get := λ _, inr [first; second];
     values_get := λ _ _, inr values |}.

(** The line that opens a sync cycle. *)
Definition is_processing_line (e : event) : bool :=
  match e with
  | Print line => startswith line "Processing sheet: "
  | _ => false
  end.

(** An event that touches the output directory's files. *)
Definition is_storage_write (e : event) : bool :=
  match e with OpenWrite _ _ => true | _ => false end.

Definition is_snapshot_read (e : event) : bool :=
  match e with PathExists _ | OpenRead _ => true | _ => false end.

Definition is_print (e : event) : bool :=
  match e with Print _ => true | _ => false end.

(** A sheet whose fetched rows are all in its stored snapshot. *)
Definition settled (svc : service) (fs : gmap string (list (list string)))
  (sheet_name : string) : Prop :=
  new_rows (fetched svc sheet_name) (stored_snapshot fs sheet_name) = [].

(** The directory after a sequence of runs, one per service state. *)
Definition runs (fs : gmap string (list (list string)))
  (svcs : list service) : gmap string (list (list string)) :=
  foldl (λ d svc, files_after (main svc d)) fs svcs.

(** * Strings *)

Section strings.
Implicit Types (a b c s t : string) (x y : ascii).

Lemma append_cons x a b : String x a +:+ b = String x (a +:+ b).
Proof. reflexivity. Qed.

Lemma append_assoc a b c : (a +:+ b) +:+ c = a +:+ (b +:+ c).
Proof.
  induction a as [|x a IH]; [reflexivity|].
  rewrite !append_cons. by rewrite IH.
Qed.

Lemma length_append a b :
  String.length (a +:+ b) = String.length a + String.length b.
Proof.
  induction a as [|x a IH]; [reflexivity|].
  rewrite append_cons. simpl. by rewrite IH.
Qed.

Lemma append_inv_r a b c : a +:+ c = b +:+ c → a = b.
Proof.
  revert b. induction a as [|x a IH]; intros [|y b] H.
  - reflexivity.
  - apply (f_equal String.length) in H.
    rewrite !length_append in H. simpl in H. lia.
  - apply (f_equal String.length) in H.
    rewrite !length_append in H. simpl in H. lia.
  - rewrite !append_cons in H. injection H as -> H. f_equal. by apply IH.
Qed.

Lemma startswith_append p r : startswith (p +:+ r) p = true.
Proof.
  unfold startswith. induction p as [|x p IH]; [by destruct r|].
  rewrite append_cons. simpl. by destruct (ascii_dec x x).
Qed.

Lemma startswith_inv s p : startswith s p = true → ∃ r, s = p +:+ r.
Proof.
  unfold startswith. revert s. induction p as [|x p IH]; intros s H.
  - by exists s.
  - destruct s as [|y s]; [done|]. simpl in H.
    destruct (ascii_dec x y) as [->|]; [|done].
    destruct (IH _ H) as [r ->]. by exists r.
Qed.

Lemma startswith_spec s p : startswith s p = true ↔ ∃ r, s = p +:+ r.
Proof.
  split; [apply startswith_inv|]. intros [r ->]. apply startswith_append.
Qed.

Lemma free_of_append x a b :
  free_of x a → free_of x b → free_of x (a +:+ b).
Proof.
  induction a as [|y a IH]; [done|].
  rewrite append_cons. simpl. intros [? ?] ?. split; auto.
Qed.

Lemma not_free_of_append_sep x a b : ¬ free_of x (a +:+ String x b).
Proof.
  induction a as [|y a IH].
  - simpl. intros [? _]. done.
  - rewrite append_cons. simpl. intros [_ ?]. auto.
Qed.

(** The last occurrence of a separator splits a name in one way. *)
Lemma last_sep_inj x a b s t :
  free_of x s → free_of x t →
  a +:+ String x s = b +:+ String x t → a = b ∧ s = t.
Proof.
  intros Hs Ht. revert b. induction a as [|y a IH]; intros [|z b] H.
  - by injection H.
  - rewrite append_cons in H. injection H as <- ->.
    by apply not_free_of_append_sep in Hs.
  - rewrite append_cons in H. injection H as -> <-.
    by apply not_free_of_append_sep in Ht.
  - rewrite !append_cons in H. injection H as -> H.
    destruct (IH _ H) as [-> ->]. done.
Qed.

Lemma string_of_uint_free_of_underscore d :
  free_of "_" (NilEmpty.string_of_uint d).
Proof. induction d; simpl; auto. Qed.

Lemma str_free_of_underscore n : free_of "_" (str n).
Proof. apply string_of_uint_free_of_underscore. Qed.

Lemma str_inj n m : str n = str m → n = m.
Proof.
  unfold str. intros H. apply Unsigned.to_uint_inj.
  assert (Some (Nat.to_uint n) = Some (Nat.to_uint m)) as [= ->]; [|done].
  by rewrite <- !NilEmpty.usu, H.
Qed.

Lemma latest_not_numbered d :
  "latest.json" ≠ NilEmpty.string_of_uint d +:+ ".json".
Proof. destruct d; done. Qed.
End strings.

(** * Python's list equality and membership *)

Section membership.
Implicit Types (r p : list string) (l cur prev : list (list string)).

Lemma list_eqb_true r p : list_eqb r p = true ↔ r = p.
Proof.
  revert p. induction r as [|c r IH]; intros [|d p]; simpl; try done.
  rewrite andb_true_iff, String.eqb_eq, IH.
  split; [by intros [-> ->] | by intros [= -> ->]].
Qed.

Lemma full_row_equal_eq r p : full_row_equal r p ↔ r = p.
Proof.
  split; [|by intros ->].
  intros [_ H]. by apply list_eq.
Qed.

Lemma py_in_true r l : py_in r l = true ↔ r ∈ l.
Proof.
  induction l as [|p l IH]; simpl.
  - split; [done|]. by intros ?%elem_of_nil.
  - rewrite orb_true_iff, list_eqb_true, IH, elem_of_cons.
    split; (intros [->|?]; [by left | by right]).
Qed.

Lemma py_in_false r l : py_in r l = false ↔ r ∉ l.
Proof. rewrite <- py_in_true. by destruct (py_in r l). Qed.

Lemma new_rows_cons r cur prev :
  new_rows (r :: cur) prev =
  if py_in r prev then new_rows cur prev else r :: new_rows cur prev.
Proof. unfold new_rows. simpl. by destruct (py_in r prev). Qed.

Lemma new_rows_filter cur prev :
  new_rows cur prev = filter (λ r, r ∉ prev) cur.
Proof.
  induction cur as [|r cur IH]; [done|].
  rewrite new_rows_cons, IH. destruct (py_in r prev) eqn:E.
  - apply py_in_true in E. by rewrite filter_cons_False by auto.
  - apply py_in_false in E. by rewrite filter_cons_True.
Qed.

Lemma elem_of_new_rows r cur prev :
  r ∈ new_rows cur prev ↔ r ∈ cur ∧ r ∉ prev.
Proof.
  rewrite new_rows_filter, list_elem_of_filter. split; by intros [? ?].
Qed.

Lemma new_rows_app c1 c2 prev :
  new_rows (c1 ++ c2) prev = new_rows c1 prev ++ new_rows c2 prev.
Proof. unfold new_rows. apply List.filter_app. Qed.

Lemma new_rows_nil_iff cur prev :
  new_rows cur prev = [] ↔ ∀ r, r ∈ cur → r ∈ prev.
Proof.
  split.
  - intros H r Hr. destruct (decide (r ∈ prev)) as [|Hn]; [done|].
    assert (r ∈ new_rows cur prev) as Hin by by apply elem_of_new_rows.
    rewrite H in Hin. by apply elem_of_nil in Hin.
  - intros H. destruct (new_rows cur prev) as [|r l] eqn:E; [done|].
    assert (r ∈ new_rows cur prev) as [Hc Hp]%elem_of_new_rows
      by (rewrite E; left).
    destruct Hp. by apply H.
Qed.
End membership.

(** * File names *)

Section names.
Implicit Types (n m : string) (k j : nat).

Lemma changes_name_prefix n k :
  changes_name n k = changes_prefix n +:+ (str k +:+ ".json").
Proof.
  unfold changes_name, changes_prefix. by rewrite !append_assoc.
Qed.

Lemma changes_name_counted n k :
  startswith (changes_name n k) (changes_prefix n) = true.
Proof. rewrite changes_name_prefix. apply startswith_append. Qed.

Lemma numbered_tail_free k : free_of "_" (str k +:+ ".json").
Proof.
  apply free_of_append; [apply str_free_of_underscore|].
  simpl. repeat split; done.
Qed.

(** A record's name determines its sheet and its number. *)
Lemma changes_name_inj n m k j :
  changes_name n k = changes_name m j → n = m ∧ k = j.
Proof.
  unfold changes_name. intros H. apply (inj (String.append _)) in H.
  apply last_sep_inj in H as [-> H]; try apply numbered_tail_free.
  split; [done|]. by apply append_inv_r, str_inj in H.
Qed.

(** A snapshot is never named like a record. *)
Lemma latest_name_ne_changes_name n m k : latest_name n ≠ changes_name m k.
Proof.
  unfold latest_name, changes_name. intros H.
  change (n +:+ String "_" "latest.json" =
          "changes_" +:+ m +:+ String "_" (str k +:+ ".json")) in H.
  rewrite <- append_assoc in H.
  apply last_sep_inj in H as [_ H]; [|simpl; repeat split; done
                                     |apply numbered_tail_free].
  by apply latest_not_numbered in H.
Qed.

(** The records of a sheet whose name extends [n] by ["_"] and a suffix
    carry the prefix [save_changes] counts for [n]. *)
Lemma changes_name_extension_counted n s k :
  startswith (changes_name (n +:+ "_" +:+ s) k) (changes_prefix n) = true.
Proof.
  apply startswith_spec. exists (s +:+ "_" +:+ str k +:+ ".json").
  unfold changes_name, changes_prefix. by rewrite !append_assoc.
Qed.
End names.

(** * Paths *)

Section paths.
Implicit Types (n s a b t : string) (k : nat).

Lemma free_of_or_first_sep x s :
  free_of x s ∨ ∃ a b, s = a +:+ String x b ∧ free_of x a.
Proof.
  induction s as [|y s IH]; [by left|].
  destruct (decide (y = x)) as [->|Hne].
  - right. by exists EmptyString, s.
  - destruct IH as [Hfree|(a & b & -> & Ha)].
    + left. by split.
    + right. by exists (String y a), b.
Qed.

Lemma free_of_or_last_sep x s :
  free_of x s ∨ ∃ a b, s = a +:+ String x b ∧ free_of x b.
Proof.
  induction s as [|y s IH]; [by left|].
  destruct IH as [Hfree|(a & b & -> & Hb)].
  - destruct (decide (y = x)) as [->|Hne].
    + right. by exists EmptyString, s.
    + left. by split.
  - right. by exists (String y a), b.
Qed.

Lemma string_of_uint_free_of_slash d :
  free_of "/" (NilEmpty.string_of_uint d).
Proof. induction d; simpl; auto. Qed.

Lemma split_sep_nonempty s : split_sep s ≠ [].
Proof.
  destruct s as [|c s]; [done|]. simpl.
  destruct (Ascii.eqb c "/"); [done|]. by destruct (split_sep s).
Qed.

Lemma split_sep_free s : free_of "/" s → split_sep s = [s].
Proof.
  induction s as [|c s IH]; [done|]. simpl. intros [Hc Hs].
  destruct (Ascii.eqb_spec c "/") as [?|_]; [done|]. by rewrite IH.
Qed.

Lemma split_sep_app_sep a b :
  free_of "/" a → split_sep (a +:+ String "/" b) = a :: split_sep b.
Proof.
  induction a as [|c a IH]; [done|]. rewrite append_cons. simpl.
  intros [Hc Ha]. destruct (Ascii.eqb_spec c "/") as [?|_]; [done|].
  by rewrite IH.
Qed.

(** A suffix without separator extends the last component. *)
Lemma split_sep_snoc a t :
  free_of "/" t →
  ∃ init l, split_sep a = init ++ [l]
          ∧ split_sep (a +:+ t) = init ++ [l +:+ t].
Proof.
  intros Ht. induction a as [|c a (init & l & Ha & Hat)].
  - exists [], EmptyString. split; [done|]. by apply split_sep_free.
  - rewrite append_cons. simpl. rewrite Ha, Hat.
    destruct (Ascii.eqb c "/").
    + by exists (EmptyString :: init), l.
    + destruct init as [|x init]; simpl.
      * by exists [], (String c l).
      * by exists (String c x :: init), l.
Qed.

Lemma walk_entry_last inside comps e :
  walk inside comps = Entry e → last comps = Some e.
Proof.
  revert inside. induction comps as [|c rest IH]; intros inside; [done|].
  assert (∀ i : bool, walk i rest = Entry e → last (c :: rest) = Some e)
    as Hrest.
  { intros i Hi. specialize (IH _ Hi). by destruct rest. }
  simpl. destruct (String.eqb c "" || String.eqb c "."); [apply Hrest|].
  destruct (String.eqb c "..").
  { destruct inside; [apply Hrest|done]. }
  destruct inside.
  - destruct rest; [|done]. by intros [= ->].
  - destruct (String.eqb c OUTPUT_DIR); [apply Hrest|done].
Qed.

Lemma startswith_sep_free s : free_of "/" s → startswith s "/" = false.
Proof.
  destruct s as [|c s]; [done|]. intros [Hc _].
  destruct (startswith (String c s) "/") eqn:E; [|done].
  apply startswith_inv in E as [r E].
  change ("/" +:+ r) with (String "/" r) in E. by injection E as -> _.
Qed.

Lemma locate_in_output name :
  locate (os_path_join OUTPUT_DIR name)
  = if startswith name "/" then Elsewhere else walk true (split_sep name).
Proof.
  unfold os_path_join. destruct (startswith name "/") eqn:E.
  - unfold locate. rewrite E. by destruct name.
  - change (String.eqb OUTPUT_DIR "" || endswith OUTPUT_DIR "/") with false.
    cbv iota. unfold locate.
    change (OUTPUT_DIR +:+ "/" +:+ name)
      with (String "o" ("utput_data" +:+ String "/" name)).
    change (String "o" ("utput_data" +:+ String "/" name))
      with ("output_data" +:+ String "/" name) at 3.
    rewrite split_sep_app_sep by (simpl; repeat split; done).
    reflexivity.
Qed.

Lemma not_short_name s :
  2 < String.length s →
  negb (String.eqb s "") && negb (String.eqb s ".")
  && negb (String.eqb s "..") = true.
Proof.
  destruct s as [|c1 [|c2 [|c3 s]]]; simpl; try lia. intros _.
  by destruct (Ascii.eqb c1 "."), (Ascii.eqb c2 ".").
Qed.

Lemma is_entry_name_latest n : plain n → is_entry_name (latest_name n) = true.
Proof.
  intros Hn. unfold is_entry_name. rewrite not_short_name.
  - apply bool_decide_eq_true. apply free_of_append; [done|].
    simpl. repeat split; done.
  - unfold latest_name. rewrite length_append. simpl. lia.
Qed.

Lemma is_entry_name_changes n k :
  plain n → is_entry_name (changes_name n k) = true.
Proof.
  intros Hn. unfold is_entry_name. rewrite not_short_name.
  - apply bool_decide_eq_true. unfold changes_name.
    repeat apply free_of_append; try done; try (simpl; repeat split; done).
    apply string_of_uint_free_of_slash.
  - unfold changes_name. rewrite length_append. simpl. lia.
Qed.

Lemma locate_entry name :
  is_entry_name name = true →
  locate (os_path_join OUTPUT_DIR name) = Entry name.
Proof.
  unfold is_entry_name. rewrite !andb_true_iff, !negb_true_iff.
  intros [[[H1 H2] H3] H4%bool_decide_eq_true].
  rewrite locate_in_output, startswith_sep_free, split_sep_free by done.
  simpl. by rewrite H1, H2, H3.
Qed.

Lemma locate_snapshot_plain n :
  plain n → locate (snapshot_path n) = Entry (latest_name n).
Proof. intros. by apply locate_entry, is_entry_name_latest. Qed.

Lemma locate_record_plain n k :
  plain n → locate (record_path n k) = Entry (changes_name n k).
Proof. intros. by apply locate_entry, is_entry_name_changes. Qed.

(** The file a snapshot path leads to is named like a snapshot. *)
Lemma locate_snapshot_entry n e :
  locate (snapshot_path n) = Entry e → ∃ b, e = latest_name b.
Proof.
  unfold snapshot_path. rewrite locate_in_output.
  destruct (startswith (latest_name n) "/"); [done|].
  intros H%walk_entry_last.
  destruct (split_sep_snoc n "_latest.json") as (init & l & _ & Hs).
  { simpl. repeat split; done. }
  unfold latest_name in H. rewrite Hs, last_snoc in H.
  exists l. by injection H.
Qed.

(** A record path leads to a file only for a plain sheet name. *)
Lemma locate_record_entry n k t :
  locate (record_path n k) = Entry t → plain n ∧ t = changes_name n k.
Proof.
  destruct (free_of_or_first_sep "/" n) as [Hp|(a & b & -> & Ha)].
  - rewrite locate_record_plain by done. by intros [= <-].
  - unfold record_path. rewrite locate_in_output.
    change (startswith (changes_name (a +:+ String "/" b) k) "/") with false.
    cbv iota.
    assert (changes_name (a +:+ String "/" b) k
            = ("changes_" +:+ a)
              +:+ String "/" (b +:+ "_" +:+ str k +:+ ".json")) as ->.
    { unfold changes_name. by rewrite !append_assoc. }
    rewrite split_sep_app_sep.
    + pose proof (split_sep_nonempty (b +:+ "_" +:+ str k +:+ ".json")).
      destruct (split_sep _); done.
    + apply free_of_append; [|done]. simpl. repeat split; done.
Qed.

Lemma open_failure_not_returned {A} fs path loc (a : A) :
  open_failure fs path loc ≠ Returned a.
Proof. by destruct loc. Qed.
End paths.

(** * Running the operations *)

Section runs.
Implicit Types (fs : gmap string (list (list string))) (n : string).

Lemma read_google_sheet_run svc n fs :
  read_google_sheet svc n fs
  = (Returned (fetched svc n), fs, fetch_trace svc n).
Proof.
  unfold read_google_sheet, fetched, fetch_trace.
  by destruct (values_get svc _ _).
Qed.

Lemma get_all_sheets_run svc fs :
  get_all_sheets svc SAMPLE_SPREADSHEET_ID fs
  = (Returned (listed_sheets svc), fs, listing_trace svc).
Proof.
  unfold get_all_sheets, listed_sheets, listing_trace.
  by destruct (spreadsheets_get svc _).
Qed.

Lemma read_previous_data_run n fs :
  read_previous_data n fs = (read_result fs n, fs, read_trace fs n).
Proof.
  unfold read_previous_data, read_result, read_trace, mbind, io_bind,
    os_path_exists, json_load. fold (snapshot_path n).
  destruct (locate (snapshot_path n)) eqn:E; try done.
  destruct (fs !! e) eqn:E'; simpl; by rewrite ?E, ?E'.
Qed.

Lemma write_new_data_run n data fs :
  write_new_data n data fs
  = match locate (snapshot_path n) with
    | Entry e => (Returned (), <[e := data]> fs, [OpenWrite e data])
    | loc => (open_failure fs (snapshot_path n) loc, fs, [])
    end.
Proof. reflexivity. Qed.

Lemma save_changes_run n changes fs :
  save_changes n changes fs
  = match locate (record_path n (changes_count fs n + 1)) with
    | Entry t =>
        (Returned (), <[t := changes]> fs,
         [ListDir OUTPUT_DIR; OpenWrite t changes;
          Print ("Changes saved to "
                 +:+ record_path n (changes_count fs n + 1))])
    | loc =>
        (open_failure fs (record_path n (changes_count fs n + 1)) loc, fs,
         [ListDir OUTPUT_DIR])
    end.
Proof.
  unfold save_changes, mbind, io_bind, os_listdir, json_dump, print.
  fold (counted_entries fs n). fold (changes_count fs n).
  fold (record_path n (changes_count fs n + 1)).
  by destruct (locate (record_path n (changes_count fs n + 1))).
Qed.

Lemma result_triple {A} (o : outcome A) fs (t : list event) :
  result (o, fs, t) = o.
Proof. reflexivity. Qed.

Lemma files_after_triple {A} (o : outcome A) fs (t : list event) :
  files_after (o, fs, t) = fs.
Proof. reflexivity. Qed.

Lemma trace_triple {A} (o : outcome A) fs (t : list event) :
  trace (o, fs, t) = t.
Proof. reflexivity. Qed.

Lemma bind_run {A B} (m : io A) (k : A → io B) fs a fs1 t1 :
  m fs = (Returned a, fs1, t1) →
  (m ≫= k) fs = ((k a fs1).1.1, (k a fs1).1.2, t1 ++ (k a fs1).2).
Proof.
  intros H. unfold mbind, io_bind. rewrite H.
  by destruct (k a fs1) as [[? ?] ?].
Qed.

(** A step that does not return ends the computation. *)
Lemma bind_stop {A B} (m : io A) (k : A → io B) fs o fs1 t1 :
  m fs = (o, fs1, t1) →
  (∀ a, o ≠ Returned a) →
  ∃ o' : outcome B, (∀ b, o' ≠ Returned b) ∧ (m ≫= k) fs = (o', fs1, t1).
Proof.
  intros H Ho. unfold mbind, io_bind. rewrite H. destruct o as [a|e|p].
  - by destruct (Ho a).
  - by exists (Raised e).
  - by exists (Escaped p).
Qed.

Lemma stored_snapshot_returned fs n prev :
  read_result fs n = Returned prev → stored_snapshot fs n = prev.
Proof. unfold stored_snapshot. by intros ->. Qed.

Lemma stored_snapshot_entry fs n e :
  locate (snapshot_path n) = Entry e →
  read_result fs n = Returned (default [] (fs !! e))
  ∧ stored_snapshot fs n = default [] (fs !! e).
Proof. unfold stored_snapshot, read_result. by intros ->. Qed.

Lemma stored_snapshot_plain fs n :
  plain n → stored_snapshot fs n = default [] (fs !! latest_name n).
Proof. intros H. by apply stored_snapshot_entry, locate_snapshot_plain. Qed.

Lemma read_trace_plain fs n :
  plain n →
  read_trace fs n
  = PathExists (snapshot_path n) ::
    match fs !! latest_name n with
    | Some _ => [OpenRead (latest_name n)]
    | None => []
    end.
Proof. intros H. unfold read_trace. by rewrite locate_snapshot_plain. Qed.

(** Every way a sync cycle can go. *)
Lemma process_sheet_cases svc n fs :
  let cur := fetched svc n in
  let new := new_rows cur (stored_snapshot fs n) in
  let head := Print ("Processing sheet: " +:+ n) :: fetch_trace svc n in
  (cur = []
   ∧ process_sheet svc n fs
     = (Returned (), fs,
        head ++ [Print ("No data found in sheet: " +:+ n)]))
  ∨ (cur ≠ [] ∧ new = []
     ∧ process_sheet svc n fs
       = (Returned (), fs,
          head ++ read_trace fs n
          ++ [Print ("No new changes found in " +:+ n +:+ ".")]))
  ∨ (new ≠ []
     ∧ (∀ prev, read_result fs n ≠ Returned prev)
     ∧ ∃ o, o ≠ Returned ()
          ∧ process_sheet svc n fs = (o, fs, head ++ read_trace fs n))
  ∨ (new ≠ []
     ∧ (∀ e, locate (snapshot_path n) ≠ Entry e)
     ∧ ∃ o, o ≠ Returned ()
          ∧ process_sheet svc n fs
            = (o, fs,
               head ++ read_trace fs n
               ++ [Print ("New/changed rows found in " +:+ n +:+ ": "
                          +:+ str (length new))]))
  ∨ (new ≠ []
     ∧ ∃ e o, locate (snapshot_path n) = Entry e
            ∧ ¬ plain n
            ∧ o ≠ Returned ()
            ∧ process_sheet svc n fs
              = (o, <[e := cur]> fs,
                 head ++ read_trace fs n
                 ++ [Print ("New/changed rows found in " +:+ n +:+ ": "
                            +:+ str (length new));
                     OpenWrite e cur;
                     ListDir OUTPUT_DIR]))
  ∨ (new ≠ []
     ∧ plain n
     ∧ let fs1 := <[latest_name n := cur]> fs in
       let target := changes_name n (changes_count fs1 n + 1) in
       process_sheet svc n fs
       = (Returned (), <[target := new]> fs1,
          head ++ read_trace fs n
          ++ [Print ("New/changed rows found in " +:+ n +:+ ": "
                     +:+ str (length new));
              OpenWrite (latest_name n) cur;
              ListDir OUTPUT_DIR;
              OpenWrite target new;
              Print ("Changes saved to "
                     +:+ os_path_join OUTPUT_DIR target)])).
Proof.
  intros cur new head. unfold process_sheet.
  rewrite (bind_run _ _ _ () fs [Print ("Processing sheet: " +:+ n)])
    by reflexivity.
  rewrite (bind_run _ _ _ _ _ _ (read_google_sheet_run svc n fs)).
  fold cur. destruct cur as [|r0 cur0] eqn:Ecur.
  { left. by split. }
  right. set (curr := r0 :: cur0) in *.
  pose proof (read_previous_data_run n fs) as Hread.
  destruct (read_result fs n) as [prev|x|p] eqn:Er.
  - rewrite (bind_run _ _ _ _ _ _ Hread).
    assert (stored_snapshot fs n = prev) as Hprev
      by by apply stored_snapshot_returned.
    subst new. rewrite Hprev.
    destruct (new_rows curr prev) as [|r1 new1] eqn:Enew.
    { left. by split_and!. }
    right. right. set (new := r1 :: new1) in *.
    rewrite (bind_run _ _ _ () fs
               [Print ("New/changed rows found in " +:+ n +:+ ": "
                       +:+ str (length new))]) by reflexivity.
    pose proof (write_new_data_run n curr fs) as Hw.
    destruct (locate (snapshot_path n)) as [e| |c|] eqn:El.
    + rewrite (bind_run _ _ _ _ _ _ Hw).
      pose proof (save_changes_run n new (<[e := curr]> fs)) as Hs.
      destruct (locate (record_path n
                  (changes_count (<[e := curr]> fs) n + 1)))
        as [t| |c|] eqn:Et.
      * right. right. split; [done|].
        apply locate_record_entry in Et as [Hp ->].
        rewrite locate_snapshot_plain in El by done. injection El as <-.
        split; [done|]. rewrite Hs. reflexivity.
      * right. left. split; [done|]. exists e, (Raised "IsADirectoryError").
        split_and!; [done| |done|by rewrite Hs].
        intros Hp. by rewrite locate_record_plain in Et.
      * right. left. split; [done|].
        exists e, (Raised (open_error (<[e := curr]> fs) c)).
        split_and!; [done| |done|by rewrite Hs].
        intros Hp. by rewrite locate_record_plain in Et.
      * right. left. split; [done|]. eexists e, (Escaped _).
        split_and!; [done| |done|by rewrite Hs].
        intros Hp. by rewrite locate_record_plain in Et.
    + left. split; [done|]. split; [done|].
      destruct (bind_stop (write_new_data n curr)
                  (λ _, save_changes n new) fs _ _ _ Hw) as (o & Ho & ->);
        [done|].
      exists o. split; [apply Ho|]. cbn [fst snd]. by rewrite app_nil_r.
    + left. split; [done|]. split; [done|].
      destruct (bind_stop (write_new_data n curr)
                  (λ _, save_changes n new) fs _ _ _ Hw) as (o & Ho & ->);
        [done|].
      exists o. split; [apply Ho|]. cbn [fst snd]. by rewrite app_nil_r.
    + left. split; [done|]. split; [done|].
      destruct (bind_stop (write_new_data n curr)
                  (λ _, save_changes n new) fs _ _ _ Hw) as (o & Ho & ->);
        [done|].
      exists o. split; [apply Ho|]. cbn [fst snd]. by rewrite app_nil_r.
  - right. left.
    assert (stored_snapshot fs n = []) as Hprev
      by (unfold stored_snapshot; by rewrite Er).
    split.
    { subst new. rewrite Hprev. done. }
    split; [done|].
    match goal with
    | |- context [(read_previous_data n ≫= ?k) fs] =>
        destruct (bind_stop (read_previous_data n) k fs _ _ _ Hread)
          as (o & Ho & ->); [done|]
    end.
    exists o. split; [apply Ho|]. done.
  - right. left.
    assert (stored_snapshot fs n = []) as Hprev
      by (unfold stored_snapshot; by rewrite Er).
    split.
    { subst new. rewrite Hprev. done. }
    split; [done|].
    match goal with
    | |- context [(read_previous_data n ≫= ?k) fs] =>
        destruct (bind_stop (read_previous_data n) k fs _ _ _ Hread)
          as (o & Ho & ->); [done|]
    end.
    exists o. split; [apply Ho|]. done.
Qed.
End runs.

(** * Counting the records of a sheet *)

Section counting.
Implicit Types (fs : gmap string (list (list string))) (n name : string).

Lemma List_filter_eq {A} (f : A → bool) (l : list A) :
  List.filter f l = filter (λ x, f x = true) l.
Proof.
  induction l as [|x l IH]; [done|]. simpl. destruct (f x) eqn:E.
  - by rewrite filter_cons_True, IH.
  - rewrite filter_cons_False by congruence. done.
Qed.

Lemma elem_of_counted_entries fs n f :
  f ∈ counted_entries fs n
  ↔ is_entry_name f = true ∧ is_Some (fs !! f)
    ∧ startswith f (changes_prefix n) = true.
Proof.
  unfold counted_entries. rewrite !List_filter_eq, !list_elem_of_filter.
  rewrite list_elem_of_fmap. split.
  - intros (? & ? & [f' d] & -> & ?%elem_of_map_to_list). eauto.
  - intros (? & [d ?] & ?). split_and!; [done..|]. exists (f, d).
    by rewrite elem_of_map_to_list.
Qed.

Lemma NoDup_counted_entries fs n : NoDup (counted_entries fs n).
Proof.
  unfold counted_entries. rewrite !List_filter_eq.
  apply NoDup_filter, NoDup_filter, NoDup_fst_map_to_list.
Qed.

Lemma changes_count_insert_fresh fs name data n :
  fs !! name = None →
  changes_count (<[name := data]> fs) n
  = (if is_entry_name name && startswith name (changes_prefix n)
     then 1 else 0)
    + changes_count fs n.
Proof.
  intros H. unfold changes_count, counted_entries.
  rewrite !List_filter_eq, (map_to_list_insert fs name data H).
  rewrite fmap_cons. cbn [fst].
  destruct (is_entry_name name) eqn:E1.
  - rewrite (filter_cons_True (λ x, is_entry_name x = true)) by done.
    destruct (startswith name (changes_prefix n)) eqn:E2.
    + by rewrite filter_cons_True.
    + rewrite filter_cons_False by congruence. done.
  - rewrite (filter_cons_False (λ x, is_entry_name x = true)) by congruence.
    done.
Qed.

Lemma changes_count_insert_present fs name data n :
  is_Some (fs !! name) →
  changes_count (<[name := data]> fs) n = changes_count fs n.
Proof.
  intros [d Hd].
  rewrite <- (insert_delete_eq fs name data).
  rewrite <- (insert_delete_id fs name d Hd) at 2.
  by rewrite !changes_count_insert_fresh by apply lookup_delete_eq.
Qed.

Lemma changes_count_insert_le fs name data n :
  changes_count fs n ≤ changes_count (<[name := data]> fs) n.
Proof.
  destruct (fs !! name) eqn:E.
  - rewrite changes_count_insert_present by eauto. done.
  - rewrite changes_count_insert_fresh by done. lia.
Qed.

Lemma changes_count_empty n : changes_count ∅ n = 0.
Proof. unfold changes_count, counted_entries. by rewrite map_to_list_empty. Qed.

(** The invariant that keeps [save_changes] from reusing a name. *)
Lemma numbered_within_empty : numbered_within ∅.
Proof. intros n k [? H]. by rewrite lookup_empty in H. Qed.

Lemma numbered_within_fresh fs n :
  numbered_within fs → fs !! changes_name n (changes_count fs n + 1) = None.
Proof.
  intros H. apply eq_None_not_Some. intros Hs. apply H in Hs. lia.
Qed.

Lemma numbered_within_write_latest fs n data :
  numbered_within fs → numbered_within (<[latest_name n := data]> fs).
Proof.
  intros H m k Hs.
  rewrite lookup_insert_ne in Hs by apply latest_name_ne_changes_name.
  etrans; [by apply H|]. apply changes_count_insert_le.
Qed.

Lemma numbered_within_save fs n data :
  plain n →
  numbered_within fs →
  numbered_within (<[changes_name n (changes_count fs n + 1) := data]> fs).
Proof.
  intros Hp H m k Hs.
  destruct (decide (changes_name n (changes_count fs n + 1)
                    = changes_name m k)) as [E|E].
  - apply changes_name_inj in E as [<- <-].
    rewrite changes_count_insert_fresh by by apply numbered_within_fresh.
    rewrite is_entry_name_changes, changes_name_counted by done.
    simpl. lia.
  - rewrite lookup_insert_ne in Hs by done.
    etrans; [by apply H|]. apply changes_count_insert_le.
Qed.
End counting.

(** * The sync engine's comparison (steps 4 to 6 of [process_sheet]) *)

Section sync.
Implicit Types (fs : gmap string (list (list string))) (n : string).
Implicit Types (r : list string) (cur prev : list (list string)).

Lemma fetch_trace_prints svc n :
  Forall (λ e, is_print e = true) (fetch_trace svc n).
Proof.
  unfold fetch_trace. destruct (values_get svc _ _); repeat constructor.
Qed.

Lemma read_trace_no_write fs n :
  Forall (λ e, is_storage_write e = false) (read_trace fs n).
Proof.
  unfold read_trace. destruct (locate (snapshot_path n));
    try destruct (fs !! e); repeat constructor.
Qed.

Lemma prints_no_write (t : list event) :
  Forall (λ e, is_print e = true) t →
  Forall (λ e, is_storage_write e = false) t.
Proof. intros H. eapply Forall_impl; [done|]. by intros []. Qed.

Lemma no_write_filter_nil (t : list event) :
  Forall (λ e, is_storage_write e = false) t →
  filter (λ e, is_storage_write e = true) t = [].
Proof.
  induction 1 as [|e t He _ IH]; [done|].
  rewrite filter_cons_False by (by rewrite He). done.
Qed.

Lemma no_write_not_exists (t : list event) :
  Forall (λ e, is_storage_write e = false) t →
  ¬ Exists (λ e, is_storage_write e = true) t.
Proof.
  rewrite Forall_forall, Exists_exists. intros H (e & He & Hw).
  specialize (H e He). congruence.
Qed.

Lemma head_no_write svc n :
  Forall (λ e, is_storage_write e = false)
         (Print ("Processing sheet: " +:+ n) :: fetch_trace svc n).
Proof.
  constructor; [done|]. apply prints_no_write, fetch_trace_prints.
Qed.


Lemma process_sheet_no_data svc n fs :
  fetched svc n = [] →
  process_sheet svc n fs
  = (Returned (), fs,
     Print ("Processing sheet: " +:+ n) :: fetch_trace svc n
     ++ [Print ("No data found in sheet: " +:+ n)]).
Proof.
  intros H.
  destruct (process_sheet_cases svc n fs)
    as [[_ ->]|[[Hc _]|[[Hn _]|[[Hn _]|[[Hn _]|[Hn _]]]]]]; try done;
    by rewrite H in Hn.
Qed.

(** A cycle without new rows leaves everything alone. *)
Lemma process_sheet_quiet svc n fs :
  new_rows (fetched svc n) (stored_snapshot fs n) = [] →
  result (process_sheet svc n fs) = Returned ()
  ∧ files_after (process_sheet svc n fs) = fs
  ∧ Forall (λ e, is_storage_write e = false) (trace (process_sheet svc n fs)).
Proof.
  intros H.
  destruct (process_sheet_cases svc n fs)
    as [[_ ->]|[(_ & _ & ->)|[[Hn _]|[[Hn _]|[[Hn _]|[Hn _]]]]]]; try done.
  - unfold result, files_after, trace. cbn [fst snd]. split_and!; try done.
    apply Forall_app. split; [apply head_no_write|by repeat constructor].
  - unfold result, files_after, trace. cbn [fst snd]. split_and!; try done.
    rewrite !Forall_app. split_and!;
      [apply head_no_write|apply read_trace_no_write|by repeat constructor].
Qed.

(** The cycle of a plain sheet name with new rows. *)
Lemma process_sheet_changes svc n fs :
  let cur := fetched svc n in
  let new := new_rows cur (stored_snapshot fs n) in
  let fs1 := <[latest_name n := cur]> fs in
  let target := changes_name n (changes_count fs1 n + 1) in
  plain n →
  new ≠ [] →
  process_sheet svc n fs
  = (Returned (), <[target := new]> fs1,
     Print ("Processing sheet: " +:+ n) :: fetch_trace svc n
     ++ read_trace fs n
     ++ [Print ("New/changed rows found in " +:+ n +:+ ": "
                +:+ str (length new));
         OpenWrite (latest_name n) cur;
         ListDir OUTPUT_DIR;
         OpenWrite target new;
         Print ("Changes saved to " +:+ os_path_join OUTPUT_DIR target)]).
Proof.
  intros cur new fs1 target Hp Hne.
  destruct (process_sheet_cases svc n fs)
    as [[Hc _]|[(_ & Hn & _)|[(_ & Hr & _)|[(_ & Hl & _)
       |[(_ & e & o & _ & Hnp & _)|(_ & _ & ->)]]]]]; try done.
  - subst new cur. by rewrite Hc in Hne.
  - destruct (stored_snapshot_entry fs n _ (locate_snapshot_plain n Hp))
      as [Hread _].
    by destruct (Hr _ Hread).
  - by destruct (Hl _ (locate_snapshot_plain n Hp)).
Qed.

(** A cycle of a plain sheet name with new rows writes the snapshot, then
    one record. *)
Lemma process_sheet_writes svc n fs :
  let cur := fetched svc n in
  let new := new_rows cur (stored_snapshot fs n) in
  let fs1 := <[latest_name n := cur]> fs in
  let target := changes_name n (changes_count fs1 n + 1) in
  plain n →
  new ≠ [] →
  result (process_sheet svc n fs) = Returned ()
  ∧ files_after (process_sheet svc n fs) = <[target := new]> fs1
  ∧ filter (λ e, is_storage_write e = true) (trace (process_sheet svc n fs))
    = [OpenWrite (latest_name n) cur; OpenWrite target new].
Proof.
  intros cur new fs1 target Hp Hne.
  rewrite process_sheet_changes by done.
  unfold result, files_after, trace. cbn [fst snd]. split_and!; try done.
  rewrite filter_cons_False by done. rewrite !filter_app.
  rewrite (no_write_filter_nil (fetch_trace svc n))
    by apply prints_no_write, fetch_trace_prints.
  rewrite (no_write_filter_nil (read_trace fs n))
    by apply read_trace_no_write.
  reflexivity.
Qed.

Lemma process_sheet_returns svc n fs :
  plain n → result (process_sheet svc n fs) = Returned ().
Proof.
  intros Hp.
  destruct (decide (new_rows (fetched svc n) (stored_snapshot fs n) = []))
    as [E|E].
  - by destruct (process_sheet_quiet svc n fs E) as (? & _).
  - by destruct (process_sheet_writes svc n fs Hp E) as (? & _).
Qed.

(** What a cycle can have done to the directory, whatever the name. *)
Lemma process_sheet_effect svc n fs :
  let cur := fetched svc n in
  let new := new_rows cur (stored_snapshot fs n) in
  let r := process_sheet svc n fs in
  (files_after r = fs
   ∧ Forall (λ e, is_storage_write e = false) (trace r)
   ∧ (result r = Returned () → new = []))
  ∨ (new ≠ [] ∧ ¬ plain n
     ∧ ∃ b, locate (snapshot_path n) = Entry (latest_name b)
          ∧ result r ≠ Returned ()
          ∧ files_after r = <[latest_name b := cur]> fs
          ∧ filter (λ e, is_storage_write e = true) (trace r)
            = [OpenWrite (latest_name b) cur])
  ∨ (new ≠ [] ∧ plain n
     ∧ result r = Returned ()
     ∧ files_after r
       = <[changes_name n
             (changes_count (<[latest_name n := cur]> fs) n + 1) := new]>
           (<[latest_name n := cur]> fs)
     ∧ filter (λ e, is_storage_write e = true) (trace r)
       = [OpenWrite (latest_name n) cur;
          OpenWrite (changes_name n
             (changes_count (<[latest_name n := cur]> fs) n + 1)) new]).
Proof.
  intros cur new r.
  destruct (decide (new = [])) as [E|E].
  { left. destruct (process_sheet_quiet svc n fs E) as (? & ? & ?). done. }
  destruct (process_sheet_cases svc n fs)
    as [[Hc _]|[(_ & Hn & _)|[(_ & _ & o & Ho & Hr)|[(_ & _ & o & Ho & Hr)
       |[(_ & e & o & Hl & Hnp & Ho & Hr)|(_ & Hp & Hr)]]]]]; try done.
  - subst new cur. by rewrite Hc in E.
  - left. subst r. rewrite Hr. unfold result, files_after, trace.
    cbn [fst snd]. split_and!; try done.
    apply Forall_app. split; [apply head_no_write|apply read_trace_no_write].
  - left. subst r. rewrite Hr. unfold result, files_after, trace.
    cbn [fst snd]. split_and!; try done.
    rewrite !Forall_app. split_and!;
      [apply head_no_write|apply read_trace_no_write|by repeat constructor].
  - right. left. split; [done|]. split; [done|].
    destruct (locate_snapshot_entry n e Hl) as [b ->]. exists b.
    subst r. rewrite Hr. unfold result, files_after, trace. cbn [fst snd].
    split_and!; try done.
    rewrite !filter_app, (no_write_filter_nil _ (head_no_write svc n)).
    rewrite (no_write_filter_nil _ (read_trace_no_write fs n)).
    reflexivity.
  - right. right.
    destruct (process_sheet_writes svc n fs Hp E) as (? & ? & ?). done.
Qed.
End sync.

(** * The loop of [main] *)

Section loop.
Implicit Types (fs : gmap string (list (list string))) (n : string).

Lemma run_eta {A}
  (r : outcome A * gmap string (list (list string)) * list event) :
  r = (result r, files_after r, trace r).
Proof. by destruct r as [[? ?] ?]. Qed.

Lemma for_each_cons_returned svc n l fs :
  let r := process_sheet svc n fs in
  let r' := for_each l (process_sheet svc) (files_after r) in
  result r = Returned () →
  for_each (n :: l) (process_sheet svc) fs
  = (result r', files_after r', trace r ++ trace r').
Proof.
  intros r r' Hr. cbn [for_each].
  assert (process_sheet svc n fs = (Returned (), files_after r, trace r))
    as H by (rewrite <- Hr; apply run_eta).
  by rewrite (bind_run _ _ _ _ _ _ H).
Qed.

Lemma for_each_cons_stopped svc n l fs :
  let r := process_sheet svc n fs in
  result r ≠ Returned () →
  result (for_each (n :: l) (process_sheet svc) fs) ≠ Returned ()
  ∧ files_after (for_each (n :: l) (process_sheet svc) fs) = files_after r
  ∧ trace (for_each (n :: l) (process_sheet svc) fs) = trace r.
Proof.
  intros r Hr. cbn [for_each].
  destruct (bind_stop (process_sheet svc n)
              (λ _, for_each l (process_sheet svc)) fs _ _ _ (run_eta r))
    as (o & Ho & ->).
  { by intros []. }
  split; [apply Ho|done].
Qed.

Lemma prints_not_processing (t : list event) :
  Forall (λ e, is_processing_line e = false) t →
  filter (λ e, is_processing_line e = true) t = [].
Proof.
  induction 1 as [|e t He _ IH]; [done|].
  rewrite filter_cons_False by (by rewrite He). done.
Qed.

Lemma fetch_trace_not_processing svc n :
  Forall (λ e, is_processing_line e = false) (fetch_trace svc n).
Proof.
  unfold fetch_trace. destruct (values_get svc _ _); repeat constructor.
Qed.

Lemma read_trace_not_processing fs n :
  Forall (λ e, is_processing_line e = false) (read_trace fs n).
Proof.
  unfold read_trace. destruct (locate (snapshot_path n));
    try destruct (fs !! e); repeat constructor.
Qed.


Lemma is_processing_line_opening n :
  is_processing_line (Print ("Processing sheet: " +:+ n)) = true.
Proof. apply startswith_append. Qed.

Lemma head_processing_lines svc n (t : list event) :
  Forall (λ e, is_processing_line e = false) t →
  filter (λ e, is_processing_line e = true)
         ((Print ("Processing sheet: " +:+ n) :: fetch_trace svc n) ++ t)
  = [Print ("Processing sheet: " +:+ n)].
Proof.
  intros Ht. rewrite filter_app.
  rewrite filter_cons_True by apply is_processing_line_opening.
  rewrite (prints_not_processing (fetch_trace svc n))
    by apply fetch_trace_not_processing.
  by rewrite (prints_not_processing t).
Qed.

(** Each cycle announces its sheet once, however it ends. *)
Lemma process_sheet_processing_lines svc n fs :
  filter (λ e, is_processing_line e = true) (trace (process_sheet svc n fs))
  = [Print ("Processing sheet: " +:+ n)].
Proof.
  destruct (process_sheet_cases svc n fs)
    as [[_ ->]|[(_ & _ & ->)|[(_ & _ & o & _ & ->)|[(_ & _ & o & _ & ->)
       |[(_ & e & o & _ & _ & _ & ->)|(_ & _ & ->)]]]]];
    unfold trace; cbn [snd]; apply head_processing_lines;
    rewrite ?Forall_app; split_and?;
    try apply read_trace_not_processing; by repeat constructor.
Qed.

Lemma for_each_process_sheet_run svc l fs :
  Forall plain l →
  result (for_each l (process_sheet svc) fs) = Returned ()
  ∧ files_after (for_each l (process_sheet svc) fs)
    = foldl (λ d n, files_after (process_sheet svc n d)) fs l
  ∧ filter (λ e, is_processing_line e = true)
           (trace (for_each l (process_sheet svc) fs))
    = (λ n, Print ("Processing sheet: " +:+ n)) <$> l.
Proof.
  intros Hl. revert fs. induction Hl as [|n l Hn _ IH]; intros fs; [done|].
  rewrite for_each_cons_returned by by apply process_sheet_returns.
  unfold result, files_after, trace.
  cbn [fst snd]. fold (files_after (process_sheet svc n fs)).
  destruct (IH (files_after (process_sheet svc n fs))) as (Hr & Hf & Ht).
  split_and!.
  - exact Hr.
  - exact Hf.
  - rewrite filter_app. fold (trace (process_sheet svc n fs)).
    rewrite process_sheet_processing_lines.
    unfold trace in Ht. by rewrite Ht.
Qed.


(** A relation between directories that every cycle respects holds
    between the start and the end of the loop. *)
Lemma for_each_preserves svc
    (R : relation (gmap string (list (list string)))) l fs :
  Reflexive R → Transitive R →
  (∀ n d, R d (files_after (process_sheet svc n d))) →
  R fs (files_after (for_each l (process_sheet svc) fs)).
Proof.
  intros Hrefl Htrans Hstep. revert fs.
  induction l as [|n l IH]; intros fs; [apply Hrefl|].
  destruct (decide (result (process_sheet svc n fs) = Returned ()))
    as [Hr|Hr].
  - rewrite for_each_cons_returned by done. unfold files_after at 1.
    cbn [fst snd]. etrans; [apply (Hstep n)|apply IH].
  - destruct (for_each_cons_stopped svc n l fs Hr) as (_ & -> & _).
    apply Hstep.
Qed.

(** What [main] amounts to. *)
Lemma main_run svc fs :
  main svc fs
  = match listed_sheets svc with
    | [] => (Returned (), fs,
             MakeDirs OUTPUT_DIR
             :: listing_trace svc
             ++ [Print "No sheets found in the spreadsheet."])
    | _ :: _ =>
        let r := for_each (listed_sheets svc) (process_sheet svc) fs in
        (result r, files_after r,
         MakeDirs OUTPUT_DIR :: listing_trace svc ++ trace r)
    end.
Proof.
  unfold main.
  rewrite (bind_run _ _ _ () fs [MakeDirs OUTPUT_DIR]) by reflexivity.
  rewrite (bind_run _ _ _ _ _ _ (get_all_sheets_run svc fs)).
  by destruct (listed_sheets svc).
Qed.

Lemma main_files_for_each svc fs :
  files_after (main svc fs)
  = files_after (for_each (listed_sheets svc) (process_sheet svc) fs).
Proof. rewrite main_run. by destruct (listed_sheets svc). Qed.

Lemma main_files svc fs :
  Forall plain (listed_sheets svc) →
  files_after (main svc fs)
  = foldl (λ d n, files_after (process_sheet svc n d)) fs (listed_sheets svc).
Proof.
  intros H. rewrite main_files_for_each.
  by destruct (for_each_process_sheet_run svc _ fs H) as (_ & -> & _).
Qed.

Lemma main_preserves svc
    (R : relation (gmap string (list (list string)))) fs :
  Reflexive R → Transitive R →
  (∀ n d, R d (files_after (process_sheet svc n d))) →
  R fs (files_after (main svc fs)).
Proof. intros. rewrite main_files_for_each. by apply for_each_preserves. Qed.
End loop.

(** * Records are kept *)

Section records.
Implicit Types (fs : gmap string (list (list string))) (n m : string).

Global Instance keeps_records_refl : Reflexive keeps_records.
Proof. by intros fs H. Qed.

Global Instance keeps_records_trans : Transitive keeps_records.
Proof.
  intros a b c Hab Hbc Ha. destruct (Hab Ha) as [Hb Hab'].
  destruct (Hbc Hb) as [Hc Hbc']. split; [done|]. auto.
Qed.

Lemma process_sheet_keeps_records svc n fs :
  keeps_records fs (files_after (process_sheet svc n fs)).
Proof.
  intros H.
  destruct (process_sheet_effect svc n fs)
    as [(-> & _)|[(_ & _ & b & _ & _ & -> & _)|(_ & Hp & _ & -> & _)]].
  - done.
  - split; [by apply numbered_within_write_latest|]. intros m k d Hd.
    by rewrite lookup_insert_ne by apply latest_name_ne_changes_name.
  - pose proof (numbered_within_write_latest fs n (fetched svc n) H) as H1.
    split; [by apply numbered_within_save|]. intros m k d Hd.
    assert (<[latest_name n := fetched svc n]> fs !! changes_name m k
            = Some d) as Hd1.
    { by rewrite lookup_insert_ne by apply latest_name_ne_changes_name. }
    rewrite lookup_insert_ne; [done|]. intros Heq.
    pose proof (numbered_within_fresh _ n H1) as Hfresh.
    rewrite Heq in Hfresh. congruence.
Qed.

Lemma main_keeps_records svc fs :
  keeps_records fs (files_after (main svc fs)).
Proof.
  apply main_preserves; try apply _. intros n d.
  apply process_sheet_keeps_records.
Qed.

Lemma process_sheet_numbered svc n fs :
  numbered_within fs → numbered_within (files_after (process_sheet svc n fs)).
Proof. intros H. by destruct (process_sheet_keeps_records svc n fs H). Qed.

Lemma sheets_numbered svc l fs :
  numbered_within fs →
  numbered_within (foldl (λ d n, files_after (process_sheet svc n d)) fs l).
Proof.
  revert fs. induction l as [|n l IH]; intros fs H; [done|].
  cbn [foldl]. by apply IH, process_sheet_numbered.
Qed.
End records.

(** * Two runs on one sheet *)

(** The first run stores the two fetched rows as snapshot and as record
    one; the second, with one more row fetched, replaces the snapshot and
    stores the added row alone as record two. *)
Example main_two_runs :
  let first := [["id"; "name"]; ["1"; "Alice"]] in
  let second := [["id"; "name"]; ["1"; "Alice"]; ["2"; "Bob"]] in
  let run1 := main (one_sheet "Sheet1" first) ∅ in
  let run2 := main (one_sheet "Sheet1" second) (files_after run1) in
  trace run1
  = [MakeDirs "output_data";
     Print "Processing sheet: Sheet1";
     PathExists "output_data/Sheet1_latest.json";
     Print "New/changed rows found in Sheet1: 2";
     OpenWrite "Sheet1_latest.json" first;
     ListDir "output_data";
     OpenWrite "changes_Sheet1_1.json" first;
     Print "Changes saved to output_data/changes_Sheet1_1.json"]
  ∧ map_to_list (files_after run2)
    = [("Sheet1_latest.json", second);
       ("changes_Sheet1_1.json", first);
       ("changes_Sheet1_2.json", [["2"; "Bob"]])].
Proof. vm_compute. by split. Qed.

(** A sheet name with a path separator: the snapshot would lie in a
    directory the script never creates, so the cycle raises at the
    snapshot write; a name that only steps through ["."] writes the
    snapshot of the sheet it aliases and raises at the record. *)
Example process_sheet_separator_names :
  let below := process_sheet (one_sheet "a/b" [["x"]]) "a/b" ∅ in
  let alias := process_sheet (one_sheet "./x" [["x"]]) "./x" ∅ in
  result below = Raised "FileNotFoundError"
  ∧ files_after below = ∅
  ∧ result alias = Raised "FileNotFoundError"
  ∧ map_to_list (files_after alias) = [("x_latest.json", [["x"]])].
Proof. vm_compute. by split_and!. Qed.

(** * The claims about the comparison *)

Lemma write_in_filter (e : event) (t : list event) :
  e ∈ t → is_storage_write e = true →
  e ∈ filter (λ e, is_storage_write e = true) t.
Proof. intros. by apply list_elem_of_filter. Qed.

(** The record a cycle writes, whatever the sheet name, holds the new
    rows, and a snapshot holding the fetched rows is written before it. *)
Lemma process_sheet_record_written svc n fs k rec :
  OpenWrite (changes_name n k) rec ∈ trace (process_sheet svc n fs) →
  plain n
  ∧ rec = new_rows (fetched svc n) (stored_snapshot fs n)
  ∧ OpenWrite (latest_name n) (fetched svc n)
    ∈ trace (process_sheet svc n fs).
Proof.
  intros Hin. pose proof (write_in_filter _ _ Hin eq_refl) as Hf.
  destruct (process_sheet_effect svc n fs)
    as [(_ & Hq & _)|[(_ & _ & b & _ & _ & _ & Hw)|(_ & Hp & _ & _ & Hw)]].
  - rewrite (no_write_filter_nil _ Hq) in Hf. by apply elem_of_nil in Hf.
  - rewrite Hw in Hf. apply list_elem_of_singleton in Hf.
    injection Hf as Hf _. symmetry in Hf.
    by apply latest_name_ne_changes_name in Hf.
  - assert (OpenWrite (latest_name n) (fetched svc n)
            ∈ trace (process_sheet svc n fs)) as Hsnap.
    { assert (OpenWrite (latest_name n) (fetched svc n)
              ∈ filter (λ e, is_storage_write e = true)
                       (trace (process_sheet svc n fs))) as H
        by (rewrite Hw; left).
      by apply list_elem_of_filter in H as [_ ?]. }
    rewrite Hw in Hf. apply elem_of_cons in Hf as [Hf|Hf].
    + injection Hf as Hf _. symmetry in Hf.
      by apply latest_name_ne_changes_name in Hf.
    + apply list_elem_of_singleton in Hf. injection Hf as _ ->. done.
Qed.

(** C1: the new rows are the rows of the current data, in their order,
    that full-row-equal no row of the previous data; a row that is
    anywhere in the previous data is never among them, whatever its
    position; and these rows are what a sync cycle records. *)
Theorem process_sheet_new_rows (svc : service) (n : string)
    (fs : gmap string (list (list string))) (cur prev : list (list string)) :
  fetched svc n = cur →
  stored_snapshot fs n = prev →
  new_rows cur prev = filter (λ r, ¬ Exists (full_row_equal r) prev) cur
  ∧ new_rows cur prev `sublist_of` cur
  ∧ (∀ r, r ∈ prev → r ∉ new_rows cur prev)
  ∧ (∀ k rec, OpenWrite (changes_name n k) rec
              ∈ trace (process_sheet svc n fs) →
              rec = new_rows cur prev)
  ∧ (plain n → new_rows cur prev ≠ [] →
     ∃ k, filter (λ e, is_storage_write e = true)
                 (trace (process_sheet svc n fs))
          = [OpenWrite (latest_name n) cur;
             OpenWrite (changes_name n k) (new_rows cur prev)]).
Proof.
  intros Hcur Hprev. split_and!.
  - rewrite new_rows_filter. apply list_filter_iff. intros r.
    rewrite Exists_exists. split.
    + intros Hr (p & Hp & ->%full_row_equal_eq). done.
    + intros Hr Hin. apply Hr. exists r. by rewrite full_row_equal_eq.
  - rewrite new_rows_filter. apply sublist_filter.
  - intros r Hr [_ ?]%elem_of_new_rows. done.
  - intros k rec Hin. subst cur prev.
    by destruct (process_sheet_record_written svc n fs k rec Hin) as (_ & ? & _).
  - intros Hp Hne. subst cur prev.
    destruct (process_sheet_writes svc n fs Hp Hne) as (_ & _ & Hw). eauto.
Qed.

Lemma process_sheet_new_rows_moved :
  let prev := [["a"; "1"]; ["b"; "2"]] in
  let cur := [["b"; "2"]; ["a"; "1"]; ["c"; "3"]] in
  let fs : gmap string (list (list string)) := {[ "S_latest.json" := prev ]} in
  fetched (one_sheet "S" cur) "S" = cur
  ∧ stored_snapshot fs "S" = prev
  ∧ new_rows cur prev = [["c"; "3"]]
  ∧ new_rows cur prev `sublist_of` cur.
Proof.
  intros prev cur fs.
  assert (stored_snapshot fs "S" = prev) as Hprev by (vm_compute; reflexivity).
  pose proof (process_sheet_new_rows (one_sheet "S" cur) "S" fs cur prev
                eq_refl Hprev) as (_ & Hsub & _).
  split_and!; [reflexivity | exact Hprev | reflexivity | exact Hsub].
Defined.

(** C7: every occurrence of a row is tested on its own against the
    previous data: the new rows of a concatenation are the concatenation
    of the new rows, a single row is kept exactly when it is absent from
    the previous data, a row absent from the previous data occurs among
    the new rows as often as in the current data and a row present in it
    not at all; both [["x"]] of the example are kept against an empty
    previous data and both are dropped against one that holds [["x"]]. *)
Theorem new_rows_per_occurrence (cur prev : list (list string))
    (r : list string) :
  (∀ c1 c2, new_rows (c1 ++ c2) prev = new_rows c1 prev ++ new_rows c2 prev)
  ∧ new_rows [r] prev = (if decide (r ∈ prev) then [] else [r])
  ∧ length (filter (λ x, x = r) (new_rows cur prev))
    = (if decide (r ∈ prev) then 0 else length (filter (λ x, x = r) cur))
  ∧ new_rows [["x"]; ["x"]] [] = [["x"]; ["x"]]
  ∧ new_rows [["x"]; ["x"]] [["x"]] = [].
Proof.
  split_and!.
  - intros c1 c2. apply new_rows_app.
  - rewrite new_rows_cons. destruct (decide (r ∈ prev)) as [Hr|Hr].
    + apply py_in_true in Hr. by rewrite Hr.
    + apply py_in_false in Hr. by rewrite Hr.
  - rewrite new_rows_filter, list_filter_filter.
    destruct (decide (r ∈ prev)) as [Hr|Hr].
    + rewrite (list_filter_iff _ (λ _, False)); [|by intros x; split;
        [intros [-> ?]|]].
      clear. by induction cur as [|x l IH];
        [|rewrite filter_cons_False by tauto].
    + f_equal. apply list_filter_iff. intros x.
      split; [by intros [? _] | by intros ->].
  - reflexivity.
  - reflexivity.
Qed.

(** C8: when the fetch gives no rows the cycle ends at once: it returns
    normally, the directory is as before, and the cycle did nothing but
    print (no existence test, no read, no listing, no write). *)
Theorem process_sheet_empty_fetch (svc : service) (n : string)
    (fs : gmap string (list (list string))) :
  fetched svc n = [] →
  result (process_sheet svc n fs) = Returned ()
  ∧ files_after (process_sheet svc n fs) = fs
  ∧ Forall (λ e, is_print e = true) (trace (process_sheet svc n fs))
  ∧ Forall (λ e, is_snapshot_read e = false ∧ is_storage_write e = false)
           (trace (process_sheet svc n fs)).
Proof.
  intros H. rewrite process_sheet_no_data by done.
  unfold result, files_after, trace. cbn [fst snd].
  assert (Forall (λ e, is_print e = true)
            (Print ("Processing sheet: " +:+ n)
             :: fetch_trace svc n
             ++ [Print ("No data found in sheet: " +:+ n)])) as Hp.
  { constructor; [done|]. apply Forall_app. split; [apply fetch_trace_prints|].
    by repeat constructor. }
  split_and!; [done | done | exact Hp |].
  eapply Forall_impl; [exact Hp|]. by intros [].
Qed.

Lemma process_sheet_empty_fetch_keeps :
  let fs : gmap string (list (list string)) := {[ "S_latest.json" := [["a"]] ]} in
  fetched (one_sheet "S" []) "S" = []
  ∧ files_after (process_sheet (one_sheet "S" []) "S" fs) = fs
  ∧ trace (process_sheet (one_sheet "S" []) "S" fs)
    = [Print "Processing sheet: S"; Print "No data found in sheet: S"].
Proof.
  intros fs.
  pose proof (process_sheet_empty_fetch (one_sheet "S" []) "S" fs eq_refl)
    as (_ & H & _).
  split_and!; [reflexivity | exact H | reflexivity].
Defined.

(** C4: when every row of a non-empty fetch is in the stored snapshot,
    whatever the order, there are no new rows and the cycle writes
    nothing: no write is in its trace and the directory, the snapshot
    included, is as before. *)
Theorem process_sheet_no_new_rows (svc : service) (n : string)
    (fs : gmap string (list (list string))) (cur : list (list string)) :
  fetched svc n = cur →
  cur ≠ [] →
  (∀ r, r ∈ cur → r ∈ stored_snapshot fs n) →
  new_rows cur (stored_snapshot fs n) = []
  ∧ result (process_sheet svc n fs) = Returned ()
  ∧ Forall (λ e, is_storage_write e = false) (trace (process_sheet svc n fs))
  ∧ files_after (process_sheet svc n fs) = fs.
Proof.
  intros <- Hne Hall. apply new_rows_nil_iff in Hall.
  destruct (process_sheet_quiet svc n fs Hall) as (? & ? & ?). done.
Qed.

Lemma process_sheet_no_new_rows_reordered :
  let prev := [["a"; "1"]; ["b"; "2"]] in
  let cur := [["b"; "2"]; ["a"; "1"]] in
  let fs : gmap string (list (list string)) := {[ "S_latest.json" := prev ]} in
  fetched (one_sheet "S" cur) "S" = cur
  ∧ cur ≠ []
  ∧ new_rows cur (stored_snapshot fs "S") = []
  ∧ files_after (process_sheet (one_sheet "S" cur) "S" fs) = fs.
Proof.
  intros prev cur fs.
  assert (∀ r, r ∈ cur → r ∈ stored_snapshot fs "S") as Hall.
  { apply new_rows_nil_iff. vm_compute. reflexivity. }
  pose proof (process_sheet_no_new_rows (one_sheet "S" cur) "S" fs cur
                eq_refl ltac:(discriminate) Hall) as (H1 & _ & _ & H2).
  split_and!; [reflexivity | discriminate | exact H1 | exact H2].
Defined.

(** C3, as the code has it: for a sheet name without path separator, on a
    first sync (a non-empty fetch and no stored snapshot) the snapshot
    read returns the empty list without raising, having only tested for
    the file; every fetched row is new; and the cycle stores the fetched
    rows as the snapshot and as the record. *)
Theorem process_sheet_first_sync (svc : service) (n : string)
    (fs : gmap string (list (list string))) (cur : list (list string)) :
  plain n →
  fetched svc n = cur →
  cur ≠ [] →
  fs !! latest_name n = None →
  read_previous_data n fs = (Returned [], fs, [PathExists (snapshot_path n)])
  ∧ new_rows cur (stored_snapshot fs n) = cur
  ∧ result (process_sheet svc n fs) = Returned ()
  ∧ files_after (process_sheet svc n fs) !! latest_name n = Some cur
  ∧ ∃ k, filter (λ e, is_storage_write e = true)
                (trace (process_sheet svc n fs))
         = [OpenWrite (latest_name n) cur; OpenWrite (changes_name n k) cur].
Proof.
  intros Hp <- Hne Hnone.
  assert (stored_snapshot fs n = []) as Hprev.
  { rewrite stored_snapshot_plain by done. by rewrite Hnone. }
  assert (new_rows (fetched svc n) (stored_snapshot fs n) = fetched svc n)
    as Hnew.
  { rewrite Hprev, new_rows_filter. clear.
    induction (fetched svc n) as [|r l IH]; [done|].
    rewrite filter_cons_True by apply not_elem_of_nil. by rewrite IH. }
  assert (new_rows (fetched svc n) (stored_snapshot fs n) ≠ []) as Hnew'
    by by rewrite Hnew.
  destruct (process_sheet_writes svc n fs Hp Hnew') as (Hr & Hf & Hw).
  split_and!.
  - rewrite read_previous_data_run, read_trace_plain by done.
    destruct (stored_snapshot_entry fs n _ (locate_snapshot_plain n Hp))
      as [-> _].
    by rewrite Hnone.
  - done.
  - done.
  - rewrite Hf.
    rewrite lookup_insert_ne by (symmetry; apply latest_name_ne_changes_name).
    apply lookup_insert_eq.
  - rewrite Hnew in Hw. eauto.
Qed.

Lemma process_sheet_first_sync_sheet1 :
  let cur := [["id"; "name"]; ["1"; "Alice"]] in
  plain "Sheet1"
  ∧ fetched (one_sheet "Sheet1" cur) "Sheet1" = cur
  ∧ cur ≠ []
  ∧ (∅ : gmap string (list (list string))) !! latest_name "Sheet1" = None
  ∧ new_rows cur (stored_snapshot ∅ "Sheet1") = cur
  ∧ files_after (process_sheet (one_sheet "Sheet1" cur) "Sheet1" ∅)
      !! latest_name "Sheet1" = Some cur.
Proof.
  intros cur.
  assert (plain "Sheet1") as Hp by (vm_compute; repeat split; discriminate).
  pose proof (process_sheet_first_sync (one_sheet "Sheet1" cur) "Sheet1" ∅ cur
                Hp eq_refl ltac:(discriminate) eq_refl)
    as (_ & H1 & _ & H2 & _).
  split_and!;
    [exact Hp | reflexivity | discriminate | reflexivity | exact H1 | exact H2].
Defined.

(** C3, as the claim has it, fails for the sheet name ["a/b"]: no
    snapshot exists, the read returns the empty list and every row is
    new, but the snapshot write raises and nothing is persisted. *)
Lemma process_sheet_first_sync_below :
  let cur := [["id"; "name"]; ["1"; "Alice"]] in
  let svc := one_sheet "a/b" cur in
  fetched svc "a/b" = cur
  ∧ cur ≠ []
  ∧ (∅ : gmap string (list (list string))) !! latest_name "a/b" = None
  ∧ result (read_previous_data "a/b" ∅) = Returned []
  ∧ new_rows cur (stored_snapshot ∅ "a/b") = cur
  ∧ result (process_sheet svc "a/b" ∅) = Raised "FileNotFoundError"
  ∧ files_after (process_sheet svc "a/b" ∅) = ∅
  ∧ stored_snapshot (files_after (process_sheet svc "a/b" ∅)) "a/b" = [].
Proof. vm_compute. split_and!; done. Qed.

(** C5, as the code has it: after a cycle with new rows for a sheet name
    without path separator the stored snapshot is the fetched data
    itself, whatever the snapshot held before. *)
Theorem process_sheet_replaces_snapshot (svc : service) (n : string)
    (fs : gmap string (list (list string))) (cur : list (list string)) :
  plain n →
  fetched svc n = cur →
  new_rows cur (stored_snapshot fs n) ≠ [] →
  result (process_sheet svc n fs) = Returned ()
  ∧ files_after (process_sheet svc n fs) !! latest_name n = Some cur
  ∧ stored_snapshot (files_after (process_sheet svc n fs)) n = cur.
Proof.
  intros Hp <- Hne.
  destruct (process_sheet_writes svc n fs Hp Hne) as (Hr & Hf & _).
  assert (files_after (process_sheet svc n fs) !! latest_name n
          = Some (fetched svc n)) as H.
  { rewrite Hf.
    rewrite lookup_insert_ne by (symmetry; apply latest_name_ne_changes_name).
    apply lookup_insert_eq. }
  split_and!; [done|done|]. rewrite stored_snapshot_plain by done.
  by rewrite H.
Qed.

Lemma process_sheet_replaces_snapshot_not_merged :
  let prev := [["a"]; ["b"]] in
  let cur := [["b"]; ["c"]] in
  let fs : gmap string (list (list string)) := {[ "S_latest.json" := prev ]} in
  plain "S"
  ∧ fetched (one_sheet "S" cur) "S" = cur
  ∧ new_rows cur (stored_snapshot fs "S") ≠ []
  ∧ stored_snapshot (files_after (process_sheet (one_sheet "S" cur) "S" fs)) "S"
    = [["b"]; ["c"]].
Proof.
  intros prev cur fs.
  assert (plain "S") as Hp by (vm_compute; repeat split; discriminate).
  assert (new_rows cur (stored_snapshot fs "S") ≠ []) as Hne
    by (vm_compute; discriminate).
  pose proof (process_sheet_replaces_snapshot (one_sheet "S" cur) "S" fs cur
                Hp eq_refl Hne) as (_ & _ & H).
  split_and!; [exact Hp | reflexivity | exact Hne | exact H].
Defined.

(** C5, as the claim has it, fails for the sheet name ["a/b"]: the cycle
    finds new rows, the snapshot write raises, and the stored snapshot
    afterwards is not the fetched data. *)
Lemma process_sheet_replaces_snapshot_below :
  let cur := [["b"]; ["c"]] in
  let svc := one_sheet "a/b" cur in
  let fs : gmap string (list (list string)) :=
    {[ "S_latest.json" := [["a"]] ]} in
  fetched svc "a/b" = cur
  ∧ new_rows cur (stored_snapshot fs "a/b") ≠ []
  ∧ result (process_sheet svc "a/b" fs) = Raised "FileNotFoundError"
  ∧ files_after (process_sheet svc "a/b" fs) = fs
  ∧ stored_snapshot (files_after (process_sheet svc "a/b" fs)) "a/b" = []
  ∧ stored_snapshot (files_after (process_sheet svc "a/b" fs)) "a/b" ≠ cur.
Proof. vm_compute. split_and!; done. Qed.

(** C6: whatever the sheet name, a record that a cycle writes comes after
    a snapshot written in the same cycle and every row of the record is a
    row of that snapshot; for a sheet name without path separator a cycle
    that writes at all writes exactly a snapshot and then one record,
    with the rows of the record among those of the snapshot, and both
    are in the directory afterwards. *)
Theorem process_sheet_record_within_snapshot (svc : service) (n : string)
    (fs : gmap string (list (list string))) :
  (∀ k rec, OpenWrite (changes_name n k) rec
            ∈ trace (process_sheet svc n fs) →
     ∃ snap, OpenWrite (latest_name n) snap ∈ trace (process_sheet svc n fs)
           ∧ rec ⊆ snap)
  ∧ (plain n →
     Exists (λ e, is_storage_write e = true)
            (trace (process_sheet svc n fs)) →
     ∃ k snap rec,
       filter (λ e, is_storage_write e = true)
              (trace (process_sheet svc n fs))
       = [OpenWrite (latest_name n) snap; OpenWrite (changes_name n k) rec]
       ∧ rec ⊆ snap
       ∧ files_after (process_sheet svc n fs) !! latest_name n = Some snap
       ∧ files_after (process_sheet svc n fs) !! changes_name n k = Some rec).
Proof.
  split.
  - intros k rec Hin.
    destruct (process_sheet_record_written svc n fs k rec Hin)
      as (_ & -> & Hsnap).
    exists (fetched svc n). split; [done|].
    intros r [? _]%elem_of_new_rows. done.
  - intros Hp Hex.
    destruct (decide (new_rows (fetched svc n) (stored_snapshot fs n) = []))
      as [E|E].
    { destruct (process_sheet_quiet svc n fs E) as (_ & _ & Hq).
      by apply no_write_not_exists in Hq. }
    destruct (process_sheet_writes svc n fs Hp E) as (_ & Hfs & Hw).
    eexists _, _, _. split; [exact Hw|]. split_and!.
    + intros r [? _]%elem_of_new_rows. done.
    + rewrite Hfs.
      rewrite lookup_insert_ne
        by (symmetry; apply latest_name_ne_changes_name).
      apply lookup_insert_eq.
    + rewrite Hfs. apply lookup_insert_eq.
Qed.

Lemma process_sheet_record_within_snapshot_bob :
  let prev := [["id"; "name"]; ["1"; "Alice"]] in
  let cur := [["id"; "name"]; ["1"; "Alice"]; ["2"; "Bob"]] in
  let fs : gmap string (list (list string)) :=
    {[ "Sheet1_latest.json" := prev; "changes_Sheet1_1.json" := prev ]} in
  let run := process_sheet (one_sheet "Sheet1" cur) "Sheet1" fs in
  plain "Sheet1"
  ∧ Exists (λ e, is_storage_write e = true) (trace run)
  ∧ ∃ k rec, files_after run !! changes_name "Sheet1" k = Some rec ∧ rec ⊆ cur.
Proof.
  intros prev cur fs run.
  assert (plain "Sheet1") as Hp by (vm_compute; repeat split; discriminate).
  assert (Exists (λ e, is_storage_write e = true) (trace run)) as Hex.
  { apply Exists_exists. exists (OpenWrite "Sheet1_latest.json" cur).
    split; [|reflexivity]. vm_compute. do 4 right. left. }
  split; [exact Hp|]. split; [exact Hex|].
  destruct (process_sheet_record_within_snapshot
              (one_sheet "Sheet1" cur) "Sheet1" fs) as [_ H].
  destruct (H Hp Hex) as (k & snap & rec & _ & Hsub & Hsnap & Hrec).
  exists k, rec. split; [exact Hrec|].
  assert (snap = cur) as <-; [|exact Hsub].
  assert (files_after run !! latest_name "Sheet1" = Some cur) as Hc
    by (vm_compute; reflexivity).
  unfold run in Hc. rewrite Hsnap in Hc. by injection Hc.
Defined.

(** * The claims about the change recorder and the run *)

Lemma save_changes_plain n (changes : list (list string))
    (fs : gmap string (list (list string))) :
  plain n →
  save_changes n changes fs
  = (Returned (),
     <[changes_name n (changes_count fs n + 1) := changes]> fs,
     [ListDir OUTPUT_DIR;
      OpenWrite (changes_name n (changes_count fs n + 1)) changes;
      Print ("Changes saved to "
             +:+ record_path n (changes_count fs n + 1))]).
Proof.
  intros Hp. rewrite save_changes_run. by rewrite locate_record_plain.
Qed.

Lemma save_changes_unplain n (changes : list (list string))
    (fs : gmap string (list (list string))) :
  ¬ plain n →
  result (save_changes n changes fs) ≠ Returned ()
  ∧ files_after (save_changes n changes fs) = fs
  ∧ trace (save_changes n changes fs) = [ListDir OUTPUT_DIR].
Proof.
  intros Hp. rewrite save_changes_run.
  destruct (locate (record_path n (changes_count fs n + 1))) as [t| |c|]
    eqn:E; try done.
  by apply locate_record_entry in E as [? _].
Qed.

(** C2, as the code has it: in every directory, gaps included,
    [save_changes] derives the number of the record as the count of the
    entries whose name starts with the sheet's prefix plus one, changes
    no entry other than the one of that name and deletes none (for a
    sheet name with a path separator it raises and writes nothing).  It
    leaves every stored entry as it was when no entry has the derived
    name; that is so where no stored record is numbered above the count
    derived for its sheet, a condition that holds of the empty directory
    and that [save_changes] and a whole run keep, so that from such a
    directory a run leaves every stored record as it was. *)
Theorem save_changes_appends (n : string) (changes : list (list string))
    (fs : gmap string (list (list string))) :
  let target := changes_name n (length (counted_entries fs n) + 1) in
  (plain n →
   result (save_changes n changes fs) = Returned ()
   ∧ files_after (save_changes n changes fs) = <[target := changes]> fs)
  ∧ (¬ plain n →
     result (save_changes n changes fs) ≠ Returned ()
     ∧ files_after (save_changes n changes fs) = fs)
  ∧ (∀ f, f ≠ target → files_after (save_changes n changes fs) !! f = fs !! f)
  ∧ (∀ f, is_Some (fs !! f) →
          is_Some (files_after (save_changes n changes fs) !! f))
  ∧ (fs !! target = None →
     ∀ f d, fs !! f = Some d →
            files_after (save_changes n changes fs) !! f = Some d)
  ∧ (numbered_within fs →
     fs !! target = None
     ∧ numbered_within (files_after (save_changes n changes fs))
     ∧ (∀ svc, numbered_within (files_after (main svc fs)))
     ∧ (∀ svc m k d, fs !! changes_name m k = Some d →
                     files_after (main svc fs) !! changes_name m k = Some d)).
Proof.
  intros target. fold (changes_count fs n) in target. subst target.
  assert (files_after (save_changes n changes fs) = fs
          ∨ files_after (save_changes n changes fs)
            = <[changes_name n (changes_count fs n + 1) := changes]> fs)
    as Hfs.
  { destruct (decide (plain n)) as [Hp|Hp].
    - right. by rewrite save_changes_plain.
    - left. by destruct (save_changes_unplain n changes fs Hp) as (_ & ? & _). }
  split_and!.
  - intros Hp. by rewrite save_changes_plain.
  - intros Hp. by destruct (save_changes_unplain n changes fs Hp) as (? & ? & _).
  - intros f Hf. destruct Hfs as [->| ->]; [done|].
    by rewrite lookup_insert_ne.
  - intros f Hf. destruct Hfs as [->| ->]; [done|].
    rewrite lookup_insert. case_decide; eauto.
  - intros Hnone f d Hd. destruct Hfs as [->| ->]; [done|].
    rewrite lookup_insert_ne; [done|]. intros <-. congruence.
  - intros H. pose proof (numbered_within_fresh fs n H) as Hfresh.
    split_and!.
    + done.
    + destruct (decide (plain n)) as [Hp|Hp].
      * rewrite save_changes_plain by done. by apply numbered_within_save.
      * by destruct (save_changes_unplain n changes fs Hp) as (_ & -> & _).
    + intros svc. by destruct (main_keeps_records svc fs H).
    + intros svc m k d Hd. destruct (main_keeps_records svc fs H) as [_ Hk].
      by apply Hk.
Qed.

Lemma save_changes_appends_second :
  let fs := files_after (save_changes "A" [["first"]] ∅) in
  plain "A"
  ∧ numbered_within fs
  ∧ fs !! "changes_A_1.json" = Some [["first"]]
  ∧ fs !! "changes_A_2.json" = None
  ∧ files_after (save_changes "A" [["second"]] fs) !! "changes_A_1.json"
    = Some [["first"]]
  ∧ files_after (save_changes "A" [["second"]] fs) !! "changes_A_2.json"
    = Some [["second"]].
Proof.
  intros fs.
  assert (plain "A") as Hp by (vm_compute; repeat split; discriminate).
  assert (numbered_within fs) as H.
  { unfold fs. rewrite save_changes_plain by done.
    unfold files_after. cbn [fst snd].
    apply numbered_within_save; [done|apply numbered_within_empty]. }
  assert (fs !! "changes_A_1.json" = Some [["first"]]) as H1
    by (vm_compute; reflexivity).
  assert (fs !! "changes_A_2.json" = None) as H2
    by (vm_compute; reflexivity).
  pose proof (save_changes_appends "A" [["second"]] fs)
    as (Hplain & _ & _ & _ & _ & Hnum).
  destruct (Hnum H) as (Hfree & _).
  assert (fs !! changes_name "A" (length (counted_entries fs "A") + 1) = None)
    as Hnone by exact Hfree.
  pose proof (save_changes_appends "A" [["second"]] fs)
    as (_ & _ & _ & _ & Hkeep & _).
  split_and!; [exact Hp | exact H | exact H1 | exact H2
              | exact (Hkeep Hnone _ _ H1) | vm_compute; reflexivity].
Defined.

(** C2, as the claim has it, fails: after two appends and the outside
    deletion of the first record, the count is one, the next number is
    two, and the append overwrites the record numbered two. *)
Lemma save_changes_overwrites_after_deletion :
  let fs0 := files_after (save_changes "A" [["second"]]
               (files_after (save_changes "A" [["first"]] ∅))) in
  let fs := delete "changes_A_1.json" fs0 in
  fs !! "changes_A_2.json" = Some [["second"]]
  ∧ changes_count fs "A" = 1
  ∧ files_after (save_changes "A" [["third"]] fs) !! "changes_A_2.json"
    = Some [["third"]].
Proof. vm_compute. by split_and!. Qed.

(** C10: the count behind a sheet's next number is the number of files,
    of any origin, whose name starts with ["changes_<sheet>_"]; the
    records of a sheet whose name extends this one by ["_"] and a
    suffix start with it too, so they are counted: with a record of
    ["A_B"] stored, the first record of ["A"] gets number two. *)
Theorem save_changes_counts_by_prefix (n : string)
    (changes : list (list string)) (fs : gmap string (list (list string))) :
  NoDup (counted_entries fs n)
  ∧ (∀ f, f ∈ counted_entries fs n
          ↔ is_entry_name f = true ∧ is_Some (fs !! f)
            ∧ ∃ s, f = changes_prefix n +:+ s)
  ∧ (plain n →
     files_after (save_changes n changes fs)
     = <[changes_name n (length (counted_entries fs n) + 1) := changes]> fs)
  ∧ (∀ s k, startswith (changes_name (n +:+ "_" +:+ s) k) (changes_prefix n)
            = true)
  ∧ (∀ s k data, plain (n +:+ "_" +:+ s) →
       changes_name (n +:+ "_" +:+ s) k
       ∈ counted_entries (<[changes_name (n +:+ "_" +:+ s) k := data]> fs) n)
  ∧ "A" ≠ "A_B"
  ∧ (let fs1 := files_after (save_changes "A_B" [["b"]] ∅) in
     fs1 !! "changes_A_B_1.json" = Some [["b"]]
     ∧ changes_count fs1 "A" = 1
     ∧ files_after (save_changes "A" [["a"]] fs1) !! "changes_A_1.json" = None
     ∧ files_after (save_changes "A" [["a"]] fs1) !! "changes_A_2.json"
       = Some [["a"]]).
Proof.
  split_and!.
  - apply NoDup_counted_entries.
  - intros f. rewrite elem_of_counted_entries, startswith_spec. done.
  - intros Hp. by rewrite save_changes_plain.
  - intros s k. apply changes_name_extension_counted.
  - intros s k data Hp. apply elem_of_counted_entries. split_and!.
    + by apply is_entry_name_changes.
    + rewrite lookup_insert_eq. eauto.
    + apply changes_name_extension_counted.
  - done.
  - vm_compute. by split_and!.
Qed.

Lemma save_changes_counts_by_prefix_plain :
  plain "A"
  ∧ plain ("A" +:+ "_" +:+ "B")
  ∧ files_after (save_changes "A" [["a"]] ∅)
    = <[changes_name "A" 1 := [["a"]]]> ∅
  ∧ changes_name "A_B" 1 ∈ counted_entries {[changes_name "A_B" 1 := [["b"]]]} "A".
Proof.
  assert (plain "A") as Hp by (vm_compute; repeat split; discriminate).
  assert (plain ("A" +:+ "_" +:+ "B")) as Hq
    by (vm_compute; repeat split; discriminate).
  pose proof (save_changes_counts_by_prefix "A" [["a"]] ∅)
    as (_ & _ & H3 & _ & H5 & _).
  split_and!; [exact Hp | exact Hq | exact (H3 Hp) | exact (H5 "B" 1 [["b"]] Hq)].
Defined.




(** * Further properties of the naming scheme *)

Section naming.
Implicit Types (n m s : string) (k j : nat).

Lemma latest_name_inj n m : latest_name n = latest_name m → n = m.
Proof. apply append_inv_r. Qed.

Lemma append_longer_ne a b : b ≠ EmptyString → a ≠ b +:+ a.
Proof.
  intros Hb H. apply (f_equal String.length) in H.
  rewrite length_append in H. destruct b; [done|]. simpl in H. lia.
Qed.

(** The artifacts of different sheets, and the snapshot and the records
    of one sheet, never share a file name. *)
Theorem artifact_names_distinct n m k j :
  (changes_name n k = changes_name m j → n = m ∧ k = j)
  ∧ (latest_name n = latest_name m → n = m)
  ∧ latest_name n ≠ changes_name m k
  ∧ changes_name n k ≠ changes_name n (k + 1).
Proof.
  split_and!.
  - apply changes_name_inj.
  - apply latest_name_inj.
  - apply latest_name_ne_changes_name.
  - intros [_ ?]%changes_name_inj. lia.
Qed.

Lemma artifact_names_distinct_sheets :
  changes_name "A" 1 = changes_name "A" 1 ∧ "A" = "A"
  ∧ latest_name "A" ≠ changes_name "A_latest.json" 3.
Proof.
  pose proof (artifact_names_distinct "A" "A" 1 1) as (H1 & _ & _ & _).
  pose proof (artifact_names_distinct "A" "A_latest.json" 3 0)
    as (_ & _ & H3 & _).
  destruct (H1 eq_refl) as [Hn _].
  split_and!; [reflexivity | exact Hn | exact H3].
Defined.

(** The record of a sheet [m] is counted for the sheet [n] exactly when
    [m] is [n] or [m] starts with [n] followed by an underscore. *)
Theorem changes_name_counted_iff n m k :
  startswith (changes_name m k) (changes_prefix n) = true
  ↔ m = n ∨ startswith m (n +:+ "_") = true.
Proof.
  split.
  - intros [r Hr]%startswith_spec. unfold changes_name, changes_prefix in Hr.
    rewrite !append_assoc in Hr. apply (inj (String.append _)) in Hr.
    change (m +:+ String "_" (str k +:+ ".json") = n +:+ String "_" r) in Hr.
    destruct (free_of_or_last_sep "_" r) as [Hfree|(a & b & -> & Hb)].
    + left. by apply last_sep_inj in Hr as [-> _];
        [| apply numbered_tail_free |].
    + right. change (n +:+ String "_" (a +:+ String "_" b))
        with (n +:+ "_" +:+ (a +:+ String "_" b)) in Hr.
      rewrite <- !append_assoc in Hr.
      apply last_sep_inj in Hr as [-> _];
        [| apply numbered_tail_free | done].
      apply startswith_append.
  - intros [->|[r ->]%startswith_spec]; [apply changes_name_counted|].
    apply startswith_spec. exists (r +:+ "_" +:+ str k +:+ ".json").
    unfold changes_name, changes_prefix. by rewrite !append_assoc.
Qed.

Lemma latest_name_counted_inv n m :
  startswith (latest_name m) (changes_prefix n) = true →
  m = "changes_" +:+ n ∨ startswith m (changes_prefix n) = true.
Proof.
  intros [r Hr]%startswith_spec. unfold latest_name, changes_prefix in Hr.
  change (m +:+ String "_" "latest.json"
          = ("changes_" +:+ n +:+ "_") +:+ r) in Hr.
  destruct (free_of_or_last_sep "_" r) as [Hfree|(a & b & -> & Hb)].
  - left. rewrite !append_assoc in Hr.
    change ("_" +:+ r) with (String "_" r) in Hr.
    rewrite <- append_assoc in Hr.
    by apply last_sep_inj in Hr as [-> _]; [| simpl; repeat split |].
  - right. rewrite <- append_assoc in Hr.
    apply last_sep_inj in Hr as [-> _]; [| simpl; repeat split; done | done].
    apply startswith_append.
Qed.

Lemma latest_name_not_counted n :
  startswith (latest_name n) (changes_prefix n) = false.
Proof.
  destruct (startswith (latest_name n) (changes_prefix n)) eqn:E; [|done].
  apply latest_name_counted_inv in E as [E|[r E]%startswith_spec].
  - by apply append_longer_ne in E.
  - unfold changes_prefix in E. rewrite !append_assoc in E.
    apply (f_equal String.length) in E. rewrite !length_append in E.
    simpl in E. lia.
Qed.

End naming.

(** * Further properties of the snapshot store and of a cycle *)

Section store.
Implicit Types (fs : gmap string (list (list string))) (n m f : string).
Implicit Types (cur prev data : list (list string)).

(** Whenever [write_new_data] returns, what it stored for the sheet is
    what [read_previous_data] returns for it afterwards, and the read
    leaves the directory unchanged; for a sheet name without path
    separator the write does return, and the snapshots of the other such
    sheets read as before. *)
Theorem snapshot_round_trip n data fs :
  (result (write_new_data n data fs) = Returned () →
   result (read_previous_data n (files_after (write_new_data n data fs)))
   = Returned data
   ∧ files_after
       (read_previous_data n (files_after (write_new_data n data fs)))
     = files_after (write_new_data n data fs))
  ∧ (plain n →
     result (write_new_data n data fs) = Returned ()
     ∧ ∀ m, plain m → m ≠ n →
         result (read_previous_data m (files_after (write_new_data n data fs)))
         = result (read_previous_data m fs)).
Proof.
  split.
  - rewrite write_new_data_run.
    destruct (locate (snapshot_path n)) as [e| |c|] eqn:E; try done.
    intros _. unfold files_after at 1 3 4. cbn [fst snd].
    rewrite read_previous_data_run. unfold result, files_after.
    cbn [fst snd]. split; [|done].
    destruct (stored_snapshot_entry (<[e := data]> fs) n e E) as [-> _].
    by rewrite lookup_insert_eq.
  - intros Hp. rewrite write_new_data_run, locate_snapshot_plain by done.
    split; [done|]. intros m Hm Hne. rewrite !read_previous_data_run.
    unfold result, files_after. cbn [fst snd].
    destruct (stored_snapshot_entry (<[latest_name n := data]> fs) m _
                (locate_snapshot_plain m Hm)) as [-> _].
    destruct (stored_snapshot_entry fs m _ (locate_snapshot_plain m Hm))
      as [-> _].
    rewrite lookup_insert_ne; [done|]. by intros ?%latest_name_inj.
Qed.

Lemma snapshot_round_trip_other :
  let fs : gmap string (list (list string)) :=
    {[ "B_latest.json" := [["b"]] ]} in
  plain "A" ∧ plain "B" ∧ "B" ≠ "A"
  ∧ result (write_new_data "A" [["a"]] fs) = Returned ()
  ∧ result (read_previous_data "A" (files_after (write_new_data "A" [["a"]] fs)))
    = Returned [["a"]]
  ∧ result (read_previous_data "B" (files_after (write_new_data "A" [["a"]] fs)))
    = Returned [["b"]].
Proof.
  intros fs.
  assert (plain "A") as Ha by (vm_compute; repeat split; discriminate).
  assert (plain "B") as Hb by (vm_compute; repeat split; discriminate).
  assert ("B" ≠ "A") as Hne by discriminate.
  destruct (snapshot_round_trip "A" [["a"]] fs) as [H1 H2].
  destruct (H2 Ha) as [Hw Hother].
  destruct (H1 Hw) as [Hr _].
  split_and!; [exact Ha | exact Hb | exact Hne | exact Hw | exact Hr |].
  rewrite (Hother "B" Hb Hne). vm_compute. reflexivity.
Defined.

Lemma process_sheet_keeps_entries svc n fs f :
  is_Some (fs !! f) → is_Some (files_after (process_sheet svc n fs) !! f).
Proof.
  intros Hf.
  destruct (process_sheet_effect svc n fs)
    as [(-> & _)|[(_ & _ & b & _ & _ & -> & _)|(_ & _ & _ & -> & _)]].
  - done.
  - rewrite lookup_insert. case_decide; eauto.
  - rewrite !lookup_insert. repeat case_decide; eauto.
Qed.

Lemma process_sheet_other_entries svc n fs f :
  (∀ b, f ≠ latest_name b) → (∀ k, f ≠ changes_name n k) →
  files_after (process_sheet svc n fs) !! f = fs !! f.
Proof.
  intros Hl Hc.
  destruct (process_sheet_effect svc n fs)
    as [(-> & _)|[(_ & _ & b & _ & _ & -> & _)|(_ & _ & _ & -> & _)]].
  - done.
  - rewrite lookup_insert_ne; [done|]. intros Heq. by apply (Hl b).
  - rewrite lookup_insert_ne by (intros Heq; symmetry in Heq; by eapply Hc).
    rewrite lookup_insert_ne; [done|]. intros Heq. by apply (Hl n).
Qed.

Lemma process_sheet_plain_entries svc n fs f :
  plain n →
  f ≠ latest_name n → (∀ k, f ≠ changes_name n k) →
  files_after (process_sheet svc n fs) !! f = fs !! f.
Proof.
  intros Hp Hl Hc.
  destruct (decide (new_rows (fetched svc n) (stored_snapshot fs n) = []))
    as [E|E].
  - by destruct (process_sheet_quiet svc n fs E) as (_ & -> & _).
  - destruct (process_sheet_writes svc n fs Hp E) as (_ & -> & _).
    rewrite lookup_insert_ne by (intros Heq; symmetry in Heq; by eapply Hc).
    by rewrite lookup_insert_ne.
Qed.

Lemma process_sheet_other_snapshot svc n fs m :
  plain n → plain m → m ≠ n →
  stored_snapshot (files_after (process_sheet svc n fs)) m
  = stored_snapshot fs m.
Proof.
  intros Hn Hm Hne. rewrite !stored_snapshot_plain by done.
  rewrite process_sheet_plain_entries; [done|done| |].
  - by intros ?%latest_name_inj.
  - intros k. apply latest_name_ne_changes_name.
Qed.

(** A cycle for a sheet, whatever its name, deletes no file and changes
    no file other than a snapshot and the records of the sheet; for a
    sheet name without path separator it changes no file other than the
    snapshot and the records of that sheet, and the stored snapshot of
    every other such sheet is as before. *)
Theorem process_sheet_frame svc n fs :
  (∀ f, is_Some (fs !! f) →
        is_Some (files_after (process_sheet svc n fs) !! f))
  ∧ (∀ f, (∀ b, f ≠ latest_name b) → (∀ k, f ≠ changes_name n k) →
          files_after (process_sheet svc n fs) !! f = fs !! f)
  ∧ (plain n →
     (∀ f, f ≠ latest_name n → (∀ k, f ≠ changes_name n k) →
           files_after (process_sheet svc n fs) !! f = fs !! f)
     ∧ (∀ m, plain m → m ≠ n →
             stored_snapshot (files_after (process_sheet svc n fs)) m
             = stored_snapshot fs m)).
Proof.
  split_and!.
  - apply process_sheet_keeps_entries.
  - apply process_sheet_other_entries.
  - intros Hp. split.
    + intros f. by apply process_sheet_plain_entries.
    + intros m Hm Hne. by apply process_sheet_other_snapshot.
Qed.

Lemma process_sheet_frame_other_sheet :
  let fs : gmap string (list (list string)) :=
    {[ "B_latest.json" := [["b"]]; "notes.txt" := [] ]} in
  let fs' := files_after (process_sheet (one_sheet "A" [["a"]]) "A" fs) in
  plain "A" ∧ plain "B" ∧ "B" ≠ "A"
  ∧ stored_snapshot fs' "B" = [["b"]]
  ∧ is_Some (fs' !! "notes.txt").
Proof.
  intros fs fs'.
  assert (plain "A") as Ha by (vm_compute; repeat split; discriminate).
  assert (plain "B") as Hb by (vm_compute; repeat split; discriminate).
  assert ("B" ≠ "A") as Hne by discriminate.
  pose proof (process_sheet_frame (one_sheet "A" [["a"]]) "A" fs)
    as (H1 & _ & H3).
  destruct (H3 Ha) as [_ Hsnap].
  split_and!; [exact Ha | exact Hb | exact Hne | |].
  - unfold fs'. rewrite (Hsnap "B" Hb Hne). vm_compute. reflexivity.
  - apply H1. vm_compute. eauto.
Defined.

(** A cycle is the fetch followed by steps that use the service no more. *)
Lemma process_sheet_after_fetch n :
  ∃ rest : list (list string) → io unit,
    ∀ svc fs,
      process_sheet svc n fs
      = (result (rest (fetched svc n) fs),
         files_after (rest (fetched svc n) fs),
         Print ("Processing sheet: " +:+ n) :: fetch_trace svc n
         ++ trace (rest (fetched svc n) fs)).
Proof.
  exists (λ current_data,
    match current_data with
    | [] => print ("No data found in sheet: " +:+ n)
    | _ :: _ =>
        previous_data ← read_previous_data n;
        let new_data := new_rows current_data previous_data in
        match new_data with
        | _ :: _ =>
            print ("New/changed rows found in " +:+ n +:+ ": "
                   +:+ str (length new_data));;
            write_new_data n current_data;;
            save_changes n new_data
        | [] => print ("No new changes found in " +:+ n +:+ ".")
        end
    end).
  intros svc fs. unfold process_sheet.
  rewrite (bind_run _ _ _ () fs [Print ("Processing sheet: " +:+ n)])
    by reflexivity.
  by rewrite (bind_run _ _ _ _ _ _ (read_google_sheet_run svc n fs)).
Qed.

(** The storage effect of a cycle depends on the service only through the
    rows fetched for the sheet: an [HttpError] and an empty sheet, or
    two services that answer the same rows, leave the same directory. *)
Theorem process_sheet_depends_on_fetched svc1 svc2 n fs :
  fetched svc1 n = fetched svc2 n →
  files_after (process_sheet svc1 n fs) = files_after (process_sheet svc2 n fs)
  ∧ filter (λ e, is_storage_write e = true) (trace (process_sheet svc1 n fs))
    = filter (λ e, is_storage_write e = true) (trace (process_sheet svc2 n fs)).
Proof.
  intros Hf. destruct (process_sheet_after_fetch n) as [rest Hrest].
  assert (∀ svc,
    files_after (process_sheet svc n fs)
    = files_after (rest (fetched svc n) fs)
    ∧ filter (λ e, is_storage_write e = true) (trace (process_sheet svc n fs))
      = filter (λ e, is_storage_write e = true)
               (trace (rest (fetched svc n) fs))) as H.
  { intros svc. rewrite Hrest, files_after_triple, trace_triple.
    split; [done|].
    rewrite filter_cons_False by done. rewrite filter_app.
    by rewrite (no_write_filter_nil (fetch_trace svc n))
      by apply prints_no_write, fetch_trace_prints. }
  destruct (H svc1) as [-> ->]. destruct (H svc2) as [-> ->].
  by rewrite Hf.
Qed.

Lemma process_sheet_depends_on_fetched_error :
  let failing := {| spreadsheets_get := λ _, inr ["S"];
                    values_get := λ _ _, inl "HttpError 500" |} in
  let fs : gmap string (list (list string)) :=
    {[ "S_latest.json" := [["a"]] ]} in
  fetched failing "S" = fetched (one_sheet "S" []) "S"
  ∧ files_after (process_sheet failing "S" fs)
    = files_after (process_sheet (one_sheet "S" []) "S" fs).
Proof.
  intros failing fs.
  pose proof (process_sheet_depends_on_fetched failing (one_sheet "S" []) "S"
                fs eq_refl) as [H _].
  split; [reflexivity | exact H].
Defined.

Lemma new_rows_self cur : new_rows cur cur = [].
Proof. by apply new_rows_nil_iff. Qed.

Lemma process_sheet_settles svc n fs :
  plain n → settled svc (files_after (process_sheet svc n fs)) n.
Proof.
  intros Hp.
  destruct (decide (new_rows (fetched svc n) (stored_snapshot fs n) = []))
    as [E|E].
  - by destruct (process_sheet_quiet svc n fs E) as (_ & -> & _).
  - unfold settled.
    destruct (process_sheet_writes svc n fs Hp E) as (_ & -> & _).
    rewrite stored_snapshot_plain by done.
    rewrite lookup_insert_ne by (symmetry; apply latest_name_ne_changes_name).
    rewrite lookup_insert_eq. apply new_rows_self.
Qed.

Lemma process_sheet_keeps_settled svc m fs n :
  plain m → plain n →
  settled svc fs n → settled svc (files_after (process_sheet svc m fs)) n.
Proof.
  intros Hm Hn H. destruct (decide (m = n)) as [->|Hne].
  - by apply process_sheet_settles.
  - unfold settled. by rewrite process_sheet_other_snapshot.
Qed.

(** Running the cycle of a sheet again on unchanged remote data writes
    nothing and leaves the directory as the first cycle left it. *)
Theorem process_sheet_idempotent svc n fs :
  let fs1 := files_after (process_sheet svc n fs) in
  files_after (process_sheet svc n fs1) = fs1
  ∧ Forall (λ e, is_storage_write e = false) (trace (process_sheet svc n fs1)).
Proof.
  intros fs1.
  destruct (process_sheet_effect svc n fs)
    as [(Hfs & Hq & _)|[(_ & _ & b & Hl & _ & Hfs & _)|(_ & Hp & _)]].
  - subst fs1. rewrite Hfs. done.
  - assert (settled svc fs1 n) as Hs.
    { unfold settled.
      destruct (stored_snapshot_entry fs1 n _ Hl) as [_ ->].
      subst fs1. rewrite Hfs, lookup_insert_eq. apply new_rows_self. }
    by destruct (process_sheet_quiet svc n fs1 Hs) as (_ & ? & ?).
  - by destruct (process_sheet_quiet svc n fs1
                   (process_sheet_settles svc n fs Hp)) as (_ & ? & ?).
Qed.
End store.

(** * Further properties of the numbering and of a run *)

Section numbering.
Implicit Types (fs : gmap string (list (list string))) (n m f : string).
Implicit Types (cur prev data : list (list string)).

Lemma changes_count_write_latest fs n data :
  changes_count (<[latest_name n := data]> fs) n = changes_count fs n.
Proof.
  destruct (fs !! latest_name n) eqn:E.
  - apply changes_count_insert_present. eauto.
  - rewrite changes_count_insert_fresh by done.
    by rewrite latest_name_not_counted, andb_false_r.
Qed.

Lemma process_sheet_count_le svc m fs n :
  changes_count fs n ≤ changes_count (files_after (process_sheet svc m fs)) n.
Proof.
  destruct (process_sheet_effect svc m fs)
    as [(-> & _)|[(_ & _ & b & _ & _ & -> & _)|(_ & _ & _ & -> & _)]].
  - done.
  - apply changes_count_insert_le.
  - etrans; [|apply changes_count_insert_le]. apply changes_count_insert_le.
Qed.

(** No run lowers the count from which a sheet's next number is derived. *)
Theorem main_count_monotone svc fs n :
  changes_count fs n ≤ changes_count (files_after (main svc fs)) n.
Proof.
  apply (main_preserves svc (λ a b, changes_count a n ≤ changes_count b n)).
  - by intros a.
  - intros a b c ??. by etrans.
  - intros m d. apply process_sheet_count_le.
Qed.

(** In a directory where no record is numbered above its sheet's count, a
    cycle with new rows for a sheet name without path separator stores
    them under the sheet's count plus one, a name that was free, and
    raises that count by exactly one: the writing cycles of a sheet
    number its records consecutively. *)
Theorem process_sheet_numbers_consecutively svc n fs :
  plain n →
  numbered_within fs →
  new_rows (fetched svc n) (stored_snapshot fs n) ≠ [] →
  fs !! changes_name n (changes_count fs n + 1) = None
  ∧ files_after (process_sheet svc n fs) !! changes_name n (changes_count fs n + 1)
    = Some (new_rows (fetched svc n) (stored_snapshot fs n))
  ∧ changes_count (files_after (process_sheet svc n fs)) n
    = changes_count fs n + 1.
Proof.
  intros Hp H E.
  destruct (process_sheet_writes svc n fs Hp E) as (_ & -> & _).
  rewrite changes_count_write_latest.
  pose proof (numbered_within_fresh fs n H) as Hfresh.
  split_and!; [done|apply lookup_insert_eq|].
  rewrite changes_count_insert_fresh.
  - rewrite is_entry_name_changes, changes_name_counted by done.
    rewrite changes_count_write_latest. simpl. lia.
  - by rewrite lookup_insert_ne by apply latest_name_ne_changes_name.
Qed.

Lemma process_sheet_numbers_consecutively_first :
  let svc := one_sheet "S" [["a"]] in
  plain "S"
  ∧ numbered_within ∅
  ∧ new_rows (fetched svc "S") (stored_snapshot ∅ "S") ≠ []
  ∧ files_after (process_sheet svc "S" ∅) !! changes_name "S" 1 = Some [["a"]]
  ∧ changes_count (files_after (process_sheet svc "S" ∅)) "S" = 1.
Proof.
  intros svc.
  assert (plain "S") as Hp by (vm_compute; repeat split; discriminate).
  assert (new_rows (fetched svc "S") (stored_snapshot ∅ "S") ≠ []) as Hne
    by (vm_compute; discriminate).
  pose proof (process_sheet_numbers_consecutively svc "S" ∅ Hp
                numbered_within_empty Hne) as (_ & H2 & H3).
  split_and!; [exact Hp | apply numbered_within_empty | exact Hne | |].
  - revert H2. vm_compute. exact (λ H, H).
  - rewrite H3. vm_compute. reflexivity.
Defined.

(** When the name derived for the next record of a sheet without path
    separator is taken, [save_changes] replaces that file, the count
    stays as it was, and the next call derives the same name again: only
    the last of the appended records is kept. *)
Theorem save_changes_taken_name n (c1 c2 : list (list string)) fs :
  plain n →
  is_Some (fs !! changes_name n (changes_count fs n + 1)) →
  files_after (save_changes n c1 fs) !! changes_name n (changes_count fs n + 1)
  = Some c1
  ∧ changes_count (files_after (save_changes n c1 fs)) n = changes_count fs n
  ∧ files_after (save_changes n c2 (files_after (save_changes n c1 fs)))
    = files_after (save_changes n c2 fs).
Proof.
  intros Hp Hs. rewrite !save_changes_plain by done.
  rewrite !files_after_triple.
  assert (changes_count
            (<[changes_name n (changes_count fs n + 1) := c1]> fs) n
          = changes_count fs n) as Hc
    by by apply changes_count_insert_present.
  split_and!.
  - apply lookup_insert_eq.
  - exact Hc.
  - rewrite Hc. apply insert_insert_eq.
Qed.

Lemma save_changes_taken_name_gap :
  let fs : gmap string (list (list string)) :=
    {[ "changes_A_2.json" := [["old"]] ]} in
  plain "A"
  ∧ is_Some (fs !! changes_name "A" (changes_count fs "A" + 1))
  ∧ changes_count (files_after (save_changes "A" [["new"]] fs)) "A" = 1
  ∧ files_after (save_changes "A" [["newer"]]
                   (files_after (save_changes "A" [["new"]] fs)))
    = files_after (save_changes "A" [["newer"]] fs).
Proof.
  intros fs.
  assert (plain "A") as Hp by (vm_compute; repeat split; discriminate).
  assert (is_Some (fs !! changes_name "A" (changes_count fs "A" + 1))) as Hs
    by (vm_compute; eauto).
  pose proof (save_changes_taken_name "A" [["new"]] [["newer"]] fs Hp Hs)
    as (_ & H2 & H3).
  split_and!; [exact Hp | exact Hs | | exact H3].
  rewrite H2. vm_compute. reflexivity.
Defined.

Lemma runs_keep_records svcs fs : keeps_records fs (runs fs svcs).
Proof.
  unfold runs. revert fs. induction svcs as [|svc svcs IH]; intros fs.
  - reflexivity.
  - cbn [foldl]. etrans; [apply (main_keeps_records svc)|apply IH].
Qed.

(** Over any sequence of runs that starts from an empty output directory,
    whatever the service answers in each, a record that is stored after
    some runs is stored unchanged after all later ones. *)
Theorem records_persist_across_runs (svcs1 svcs2 : list service) m k d :
  runs ∅ svcs1 !! changes_name m k = Some d →
  runs ∅ (svcs1 ++ svcs2) !! changes_name m k = Some d.
Proof.
  intros Hd. unfold runs. rewrite foldl_app.
  destruct (runs_keep_records svcs1 ∅ numbered_within_empty) as [Hn _].
  destruct (runs_keep_records svcs2 (runs ∅ svcs1) Hn) as [_ Hk].
  by apply Hk.
Qed.

Lemma records_persist_across_runs_two :
  let first := one_sheet "S" [["a"]] in
  let second := one_sheet "S" [["a"]; ["b"]] in
  runs ∅ [first] !! changes_name "S" 1 = Some [["a"]]
  ∧ runs ∅ ([first] ++ [second]) !! changes_name "S" 1 = Some [["a"]].
Proof.
  intros first second.
  assert (runs ∅ [first] !! changes_name "S" 1 = Some [["a"]]) as H
    by (vm_compute; reflexivity).
  split; [exact H|].
  exact (records_persist_across_runs [first] [second] "S" 1 [["a"]] H).
Defined.
End numbering.

(** * Further properties of a run and of the comparison *)

Section rerun.
Implicit Types (fs : gmap string (list (list string))) (n m : string).
Implicit Types (r : list string) (cur prev other : list (list string)).

Lemma listing_trace_no_write svc :
  Forall (λ e, is_storage_write e = false) (listing_trace svc).
Proof.
  unfold listing_trace. destruct (spreadsheets_get svc _); repeat constructor.
Qed.

Lemma sheets_keep_settled svc l fs n :
  Forall plain l → plain n →
  settled svc fs n →
  settled svc (foldl (λ d m, files_after (process_sheet svc m d)) fs l) n.
Proof.
  intros Hl Hn. revert fs. induction Hl as [|m l Hm _ IH]; intros fs H;
    [done|].
  cbn [foldl]. by apply IH, process_sheet_keeps_settled.
Qed.

Lemma sheets_all_settled svc l fs n :
  Forall plain l →
  n ∈ l →
  settled svc (foldl (λ d m, files_after (process_sheet svc m d)) fs l) n.
Proof.
  intros Hl. revert fs. induction Hl as [|m l Hm Hl IH]; intros fs Hn.
  - by apply elem_of_nil in Hn.
  - cbn [foldl]. apply elem_of_cons in Hn as [->|Hn].
    + by apply sheets_keep_settled, process_sheet_settles.
    + by apply IH.
Qed.

Lemma for_each_settled svc l fs :
  (∀ n, n ∈ l → settled svc fs n) →
  result (for_each l (process_sheet svc) fs) = Returned ()
  ∧ files_after (for_each l (process_sheet svc) fs) = fs
  ∧ Forall (λ e, is_storage_write e = false)
           (trace (for_each l (process_sheet svc) fs)).
Proof.
  induction l as [|n l IH]; intros H; [by split_and!; [..|constructor]|].
  destruct (process_sheet_quiet svc n fs) as (Hr & Hfs & Ht).
  { apply H. left. }
  rewrite for_each_cons_returned by done.
  rewrite result_triple, files_after_triple, trace_triple, Hfs.
  destruct IH as (IH0 & IH1 & IH2).
  { intros m Hm. apply H. by right. }
  split_and!; [done|done|]. by apply Forall_app.
Qed.

(** When no listed sheet name has a path separator, a second run against
    unchanged remote data writes nothing and leaves the directory as the
    first run left it. *)
Theorem main_idempotent svc fs :
  Forall plain (listed_sheets svc) →
  let fs1 := files_after (main svc fs) in
  files_after (main svc fs1) = fs1
  ∧ Forall (λ e, is_storage_write e = false) (trace (main svc fs1)).
Proof.
  intros Hp fs1.
  assert (∀ n, n ∈ listed_sheets svc → settled svc fs1 n) as Hs.
  { intros n Hn. unfold fs1. rewrite main_files by done.
    by apply sheets_all_settled. }
  destruct (for_each_settled svc (listed_sheets svc) fs1 Hs) as (_ & Hf & Ht).
  rewrite main_run. destruct (listed_sheets svc) as [|n l] eqn:E.
  - rewrite files_after_triple, trace_triple. split; [done|].
    constructor; [done|]. apply Forall_app. split.
    + apply listing_trace_no_write.
    + by repeat constructor.
  - cbv zeta. rewrite files_after_triple, trace_triple. split; [done|].
    constructor; [done|]. apply Forall_app. split; [|done].
    apply listing_trace_no_write.
Qed.

Lemma main_idempotent_two_sheets :
  let svc := two_sheets "x" "y" [["1"]] in
  Forall plain (listed_sheets svc)
  ∧ files_after (main svc (files_after (main svc ∅)))
    = files_after (main svc ∅).
Proof.
  intros svc.
  assert (Forall plain (listed_sheets svc)) as Hp.
  { repeat constructor; vm_compute; repeat split; discriminate. }
  destruct (main_idempotent svc ∅ Hp) as [H _].
  split; [exact Hp | exact H].
Defined.

(** When no listed sheet name has a path separator, after a run every row
    fetched for a listed sheet is in that sheet's stored snapshot, and
    the snapshot of a sheet without path separator that is not listed is
    as before. *)
Theorem main_settles svc fs n :
  Forall plain (listed_sheets svc) →
  (n ∈ listed_sheets svc →
   ∀ r, r ∈ fetched svc n → r ∈ stored_snapshot (files_after (main svc fs)) n)
  ∧ (plain n → n ∉ listed_sheets svc →
     stored_snapshot (files_after (main svc fs)) n = stored_snapshot fs n).
Proof.
  intros Hp. rewrite main_files by done. split.
  - intros Hn. apply new_rows_nil_iff. by apply sheets_all_settled.
  - intros Hplain. revert Hp. generalize (listed_sheets svc). intros l Hl.
    revert fs. induction Hl as [|m l Hm _ IH]; intros fs Hn; [done|].
    apply not_elem_of_cons in Hn as [Hne Hn]. cbn [foldl].
    rewrite IH by done. by apply process_sheet_other_snapshot.
Qed.

Lemma main_settles_listed :
  let svc := one_sheet "S" [["a"]; ["b"]] in
  let fs : gmap string (list (list string)) :=
    {[ "S_latest.json" := [["a"]]; "T_latest.json" := [["t"]] ]} in
  Forall plain (listed_sheets svc)
  ∧ "S" ∈ listed_sheets svc
  ∧ ["b"] ∈ stored_snapshot (files_after (main svc fs)) "S"
  ∧ plain "T"
  ∧ ("T" ∉ listed_sheets svc)
  ∧ stored_snapshot (files_after (main svc fs)) "T" = [["t"]].
Proof.
  intros svc fs.
  assert (Forall plain (listed_sheets svc)) as Hp.
  { repeat constructor; vm_compute; repeat split; discriminate. }
  assert (plain "T") as Ht by (vm_compute; repeat split; discriminate).
  destruct (main_settles svc fs "S" Hp) as [H1 _].
  destruct (main_settles svc fs "T" Hp) as [_ H2].
  assert ("S" ∈ listed_sheets svc) as HS by (left).
  assert ("T" ∉ listed_sheets svc) as HT.
  { unfold svc, listed_sheets, one_sheet. cbn.
    rewrite elem_of_cons, elem_of_nil. intros [?|[]]. discriminate. }
  split_and!; [exact Hp | exact HS | | exact Ht | exact HT |].
  - apply (H1 HS). unfold svc, fetched, one_sheet. cbn. right. left.
  - rewrite (H2 Ht HT). vm_compute. reflexivity.
Defined.

(** When the listing fails or names no sheet, the run touches nothing: the
    directory is as before and nothing is fetched, read or written. *)
Theorem main_no_sheets svc fs :
  listed_sheets svc = [] →
  result (main svc fs) = Returned ()
  ∧ files_after (main svc fs) = fs
  ∧ trace (main svc fs)
    = MakeDirs OUTPUT_DIR :: listing_trace svc
      ++ [Print "No sheets found in the spreadsheet."]
  ∧ Forall (λ e, is_snapshot_read e = false ∧ is_storage_write e = false
                 ∧ is_processing_line e = false) (trace (main svc fs)).
Proof.
  intros H. rewrite main_run, H. unfold result, files_after, trace.
  cbn [fst snd]. split_and!; try done.
  constructor; [done|]. apply Forall_app. split; [|by repeat constructor].
  unfold listing_trace. destruct (spreadsheets_get svc _); repeat constructor.
Qed.

Lemma main_no_sheets_error :
  let failing := {| spreadsheets_get := λ _, inl "HttpError 403";
                    values_get := λ _ _, inr [["x"]] |} in
  let fs : gmap string (list (list string)) := {[ "S_latest.json" := [] ]} in
  listed_sheets failing = []
  ∧ files_after (main failing fs) = fs
  ∧ trace (main failing fs)
    = [MakeDirs "output_data";
       Print "An error occurred while fetching sheet names: HttpError 403";
       Print "No sheets found in the spreadsheet."].
Proof.
  intros failing fs.
  pose proof (main_no_sheets failing fs eq_refl) as (_ & H & _).
  split_and!; [reflexivity | exact H | reflexivity].
Defined.

(** The comparison uses the previous data as a set of rows: enlarging it
    can only remove new rows, and two previous data with the same rows,
    in any order and multiplicity, give the same new rows. *)
Theorem new_rows_previous_as_set cur prev other :
  prev ⊆ other →
  new_rows cur other `sublist_of` new_rows cur prev
  ∧ (other ⊆ prev → new_rows cur other = new_rows cur prev).
Proof.
  intros Hsub. split.
  - assert (new_rows cur other = new_rows (new_rows cur prev) other) as ->.
    { rewrite !new_rows_filter, list_filter_filter. apply list_filter_iff.
      intros r. split; [|by intros [? _]]. intros Hr. split; [done|].
      intros Hp. by apply Hr, Hsub. }
    rewrite (new_rows_filter (new_rows cur prev)). apply sublist_filter.
  - intros Hsup. rewrite !new_rows_filter. apply list_filter_iff.
    intros r. split; intros Hr Hin; apply Hr; auto.
Qed.

Lemma new_rows_previous_as_set_shuffled :
  let prev := [["a"]; ["b"]] in
  let other := [["b"]; ["a"]; ["b"]] in
  prev ⊆ other
  ∧ other ⊆ prev
  ∧ new_rows [["c"]; ["a"]] other = new_rows [["c"]; ["a"]] prev.
Proof.
  intros prev other.
  assert (prev ⊆ other) as H1.
  { intros r. unfold prev, other. rewrite !elem_of_cons, !elem_of_nil. tauto. }
  assert (other ⊆ prev) as H2.
  { intros r. unfold prev, other. rewrite !elem_of_cons, !elem_of_nil. tauto. }
  destruct (new_rows_previous_as_set [["c"]; ["a"]] prev other H1) as [_ H].
  split_and!; [exact H1 | exact H2 | exact (H H2)].
Defined.

(** The comparison of a data with itself finds nothing new, against no
    previous data everything is new, new rows stay new when compared
    again, and there are never more new rows than fetched rows. *)
Theorem new_rows_laws cur prev :
  new_rows cur cur = []
  ∧ new_rows cur [] = cur
  ∧ new_rows (new_rows cur prev) prev = new_rows cur prev
  ∧ new_rows (new_rows cur prev) cur = []
  ∧ length (new_rows cur prev) ≤ length cur.
Proof.
  split_and!.
  - apply new_rows_self.
  - rewrite new_rows_filter. induction cur as [|r l IH]; [done|].
    rewrite filter_cons_True by apply not_elem_of_nil. by rewrite IH.
  - rewrite !new_rows_filter, list_filter_filter. apply list_filter_iff.
    intros r. split; [by intros [? _]|done].
  - apply new_rows_nil_iff. by intros r [? _]%elem_of_new_rows.
  - rewrite new_rows_filter. apply length_filter.
Qed.

(** What a writing cycle for a sheet name without path separator prints
    is what it stored: the count it reports is the number of rows of the
    record, and the path it reports last is the record's file in the
    output directory. *)
Theorem process_sheet_reports_record svc n fs :
  plain n →
  new_rows (fetched svc n) (stored_snapshot fs n) ≠ [] →
  ∃ f, last (trace (process_sheet svc n fs))
       = Some (Print ("Changes saved to output_data/" +:+ f))
     ∧ files_after (process_sheet svc n fs) !! f
       = Some (new_rows (fetched svc n) (stored_snapshot fs n))
     ∧ Print ("New/changed rows found in " +:+ n +:+ ": "
              +:+ str (length (new_rows (fetched svc n) (stored_snapshot fs n))))
       ∈ trace (process_sheet svc n fs).
Proof.
  intros Hp E. rewrite process_sheet_changes by done.
  unfold files_after, trace. cbn [fst snd]. eexists. split_and!.
  - apply last_Some.
    eexists (_ :: fetch_trace svc n ++ read_trace fs n ++ [_; _; _; _]).
    rewrite <- !app_comm_cons, <- !app_assoc. reflexivity.
  - apply lookup_insert_eq.
  - right. rewrite !elem_of_app. right. right. left.
Qed.

Lemma process_sheet_reports_record_first :
  let svc := one_sheet "S" [["a"]; ["b"]] in
  plain "S"
  ∧ new_rows (fetched svc "S") (stored_snapshot ∅ "S") ≠ []
  ∧ last (trace (process_sheet svc "S" ∅))
    = Some (Print "Changes saved to output_data/changes_S_1.json")
  ∧ Print "New/changed rows found in S: 2" ∈ trace (process_sheet svc "S" ∅).
Proof.
  intros svc.
  assert (plain "S") as Hp by (vm_compute; repeat split; discriminate).
  assert (new_rows (fetched svc "S") (stored_snapshot ∅ "S") ≠ []) as Hne
    by (vm_compute; discriminate).
  destruct (process_sheet_reports_record svc "S" ∅ Hp Hne) as (f & _ & _ & H).
  split_and!; [exact Hp | exact Hne | vm_compute; reflexivity |].
  revert H. vm_compute. exact (λ H, H).
Defined.
End rerun.
